(** * The player object of shining-soul-j ([src/objects/Player.ts])

    A shallow embedding of the [Player] class: its hit points, its
    behaviour state with the elapsed-time counter, the velocity ladder of
    [update], facing, animation choice and the events it emits.

    Numbers.  The class is embedded twice.  The first embedding takes hit
    points and damage amounts as integers ([Z]) and velocities, positions
    and times as real numbers ([R]); it carries the properties that rest on
    control flow, on the order of events and on the sign or the vanishing
    of a number, where exact and rounded arithmetic agree.  The second,
    [F64], takes every number as the binary64 float a JavaScript number is,
    with the machine's rounded operations; it carries the properties that
    rest on the value of a sum, a product or a square root: the settle
    timer against its threshold, the length of a normalized diagonal, the
    hit points beyond 2^53.

    Effects.  A method is a function from the object before the call to the
    object after it; [receiveDamage] also returns the effects it performs on
    the audio system and on the event dispatcher, in program order. *)

From Stdlib Require Uint63.
From Stdlib Require Import Floats ZArith List String Bool Reals Lra Lia Sorted.
Import ListNotations.

Local Open Scope Z_scope.

(** ** Engine values *)

(** [Phaser.Math.Vector2]. *)
Record Vector2 := mkVector2 { vecX : R; vecY : R }.

(** [Vector2.normalize] of the engine: divides by the length when the
    squared length is positive, leaves the vector alone otherwise. *)
Definition Vector2_normalize (v : Vector2) : Vector2 :=
  let len := (vecX v * vecX v + vecY v * vecY v)%R in
  if Rlt_dec 0 len then
    let len' := (1 / sqrt len)%R in
    mkVector2 (vecX v * len') (vecY v * len')
  else v.

(** [Vector2.scale] of the engine. *)
Definition Vector2_scale (value : R) (v : Vector2) : Vector2 :=
  mkVector2 (vecX v * value) (vecY v * value).

(** The part of [Phaser.Physics.Arcade.Body] the player touches. *)
Record Body := mkBody {
  velocity : Vector2;
  immovable : bool;
  collideWorldBounds : bool;
  bodyWidth : R;
  bodyHeight : R;
  bodyOffsetX : R;
  bodyOffsetY : R
}.

Definition Body_setVelocity (vx vy : R) (b : Body) : Body :=
  mkBody (mkVector2 vx vy) (immovable b) (collideWorldBounds b)
         (bodyWidth b) (bodyHeight b) (bodyOffsetX b) (bodyOffsetY b).

Definition Body_withVelocity (v : Vector2) (b : Body) : Body :=
  mkBody v (immovable b) (collideWorldBounds b)
         (bodyWidth b) (bodyHeight b) (bodyOffsetX b) (bodyOffsetY b).

Definition Body_setImmovable (value : bool) (b : Body) : Body :=
  mkBody (velocity b) value (collideWorldBounds b)
         (bodyWidth b) (bodyHeight b) (bodyOffsetX b) (bodyOffsetY b).

(** The main camera of the scene, read by [receiveDamage]. *)
Record Camera := mkCamera {
  worldViewX : R;
  worldViewY : R;
  camWidth : R;
  camHeight : R;
  zoom : R
}.

Record Scene := mkScene { mainCamera : Camera }.

(** The keyboard keys the constructor registers; each field is the key's
    [isDown] flag at the time of the call. *)
Record Keys := mkKeys {
  keyW : bool;
  keyA : bool;
  keyS : bool;
  keyD : bool;
  keyJ : bool
}.

(** ** Program values *)

Inductive PlayerState := Default | Talking | FinishTalking.

Record PlayerConfig := mkPlayerConfig {
  cfgAsset : string;
  cfgBodyWidth : R;
  cfgBodyHeight : R;
  cfgBodyOffsetX : R;
  cfgBodyOffsetY : R
}.

Inductive AudioAsset := DamagePlayer.

(** The events of [Events.Event] the player emits, with their payloads. *)
Inductive Event :=
| PlayerDies (scene : Scene)
| Damage (damage : Z) (x y : R) (color : Z)
| PlayerHpChange (currentHitPoints : Z).

(** What a method does to the world outside the object, in program order. *)
Inductive Effect :=
| PlaySound (a : AudioAsset)
| Emit (e : Event).

Definition isPlayerDies (f : Effect) : bool :=
  match f with Emit (PlayerDies _) => true | _ => false end.

Definition isPlayerHpChange (f : Effect) : bool :=
  match f with Emit (PlayerHpChange _) => true | _ => false end.

(** The constants of [PlayerAssetData] and [WeaponAsset] the class reads;
    their declarations are not among the sources, so they are parameters. *)
Record AssetConstants := mkAssetConstants {
  HitFrameKey : string;
  IdleAnimationPrefix : string;
  RunAnimationPrefix : string;
  RegularSword : string
}.

(** The payload of [Events.Event.ItemSlotChange]. *)
Record ItemSlotChange := mkItemSlotChange {
  currentWeaponAsset : option string
}.

(** JavaScript truthiness of an optional string. *)
Definition truthy (a : option string) : bool :=
  match a with
  | Some EmptyString => false
  | Some _ => true
  | None => false
  end.

(** One call on the object by the rest of the game: the enemies
    ([receiveDamage]), the scene loop ([update]), the event dispatcher
    ([handleItemSlotChange]) and the scripts that talk to the player. *)
Inductive Call :=
| CallReceiveDamage (scene : Scene) (damage : Z)
| CallUpdate (delta : R) (keys : Keys)
| CallSetAttackEnabled (enabled : bool)
| CallItemSlotChange (d : ItemSlotChange)
| CallSetCurrentState (state : PlayerState).

(** The horizontal orientation a flip stands for: the sprites are drawn
    facing right, and flipped to face left. *)
Inductive Facing := FacingLeft | FacingRight.

(** [emittedBefore f g log]: some effect satisfying [f] comes in [log]
    before some effect satisfying [g]. *)
Fixpoint emittedBefore (f g : Effect -> bool) (log : list Effect) : bool :=
  match log with
  | [] => false
  | e :: rest => (f e && existsb g rest) || emittedBefore f g rest
  end.

(** The number of [PlayerDies] events in a log. *)
Definition countPlayerDies (log : list Effect) : nat :=
  List.length (filter isPlayerDies log).

(** The claim's count, in its words: the number of downward crossings of
    the hit points to exactly 0, along the values [hps] that follow [h0]. *)
Fixpoint downwardCrossings (h0 : Z) (hps : list Z) : nat :=
  match hps with
  | [] => O
  | h :: rest =>
      let crossed := if (0 <? h0) && (h =? 0) then 1%nat else 0%nat in
      (crossed + downwardCrossings h rest)%nat
  end.

(** The number of calls that leave the hit points at exactly 0. *)
Definition zeroes (hps : list Z) : nat :=
  List.length (filter (fun h => h =? 0) hps).

Definition anyDirectionKey (keys : Keys) : bool :=
  keyW keys || keyA keys || keyS keys || keyD keys.

Section PlayerObject.

(** The [Weapon] class is not among the sources.  The player uses it as an
    engine sprite (flip, visibility, physics body) and through the
    constructor, [setModel] and [update]; whatever else a weapon holds
    (its model, its rotation) is [WeaponInternal]. *)
Context {WeaponInternal : Type}.

Record Weapon := mkWeapon {
  weaponFlipX : bool;
  weaponVisible : bool;
  weaponBodyEnable : bool;
  weaponInternal : WeaponInternal
}.

Definition Weapon_setFlipX (value : bool) (w : Weapon) : Weapon :=
  mkWeapon value (weaponVisible w) (weaponBodyEnable w) (weaponInternal w).

Definition Weapon_setVisible (value : bool) (w : Weapon) : Weapon :=
  mkWeapon (weaponFlipX w) value (weaponBodyEnable w) (weaponInternal w).

Definition Weapon_setBodyEnable (value : bool) (w : Weapon) : Weapon :=
  mkWeapon (weaponFlipX w) (weaponVisible w) value (weaponInternal w).

(** The fields of the class, with the sprite fields it inherits and uses.
    [frame] is the frame last asked for with [setFrame] and [animKey] the
    animation last asked for with [anims.play]; which frame the engine's
    animation system then draws is the engine's. *)
Record Player := mkPlayer {
  asset : string;
  spriteX : R;
  spriteY : R;
  frame : option string;
  animKey : option string;
  flipX : bool;
  body : Body;
  weapon : Weapon;
  hitPoints : Z;
  attackEnabled : bool;
  currentState : PlayerState;
  elapsedTime : R
}.

(** What the class takes from the rest of the repository: the asset
    constants, and the three entry points of [Weapon] it calls, namely
    [new Weapon(scene, WeaponAssetFactory.create(asset))],
    [weapon.setModel(WeaponAssetFactory.create(asset))] and
    [weapon.update(player, attackEnabled)], the last with the keys it can
    poll through [player.isActionKeyDown()]. *)
Class Collaborators := mkCollaborators {
  data : AssetConstants;
  Weapon_new : string -> Weapon;
  Weapon_setModel : string -> Weapon -> Weapon;
  Weapon_update : Keys -> Player -> bool -> Weapon -> Weapon
}.

(** The weapon's own methods leave the sprite's horizontal flip to the
    player: a new weapon is not flipped, and neither [setModel] nor
    [update] changes the flip. *)
Class WeaponKeepsFlip (env : Collaborators) : Prop := mkWeaponKeepsFlip {
  Weapon_new_flipX : forall a, weaponFlipX (Weapon_new a) = false;
  Weapon_setModel_flipX :
    forall a w, weaponFlipX (Weapon_setModel a w) = weaponFlipX w;
  Weapon_update_flipX :
    forall keys p enabled w,
      weaponFlipX (Weapon_update keys p enabled w) = weaponFlipX w
}.

Context {env : Collaborators}.

Definition MAX_HIT_POINTS : Z := 8.
Definition MOVE_SPEED : R := 64%R.

(** *** Field assignments *)

Definition setFrame (f : string) (p : Player) : Player :=
  mkPlayer (asset p) (spriteX p) (spriteY p) (Some f) (animKey p) (flipX p)
           (body p) (weapon p) (hitPoints p) (attackEnabled p)
           (currentState p) (elapsedTime p).

Definition anims_play (key : string) (p : Player) : Player :=
  mkPlayer (asset p) (spriteX p) (spriteY p) (frame p) (Some key) (flipX p)
           (body p) (weapon p) (hitPoints p) (attackEnabled p)
           (currentState p) (elapsedTime p).

Definition setFlipX (value : bool) (p : Player) : Player :=
  mkPlayer (asset p) (spriteX p) (spriteY p) (frame p) (animKey p) value
           (body p) (weapon p) (hitPoints p) (attackEnabled p)
           (currentState p) (elapsedTime p).

Definition withBody (b : Body) (p : Player) : Player :=
  mkPlayer (asset p) (spriteX p) (spriteY p) (frame p) (animKey p) (flipX p)
           b (weapon p) (hitPoints p) (attackEnabled p)
           (currentState p) (elapsedTime p).

Definition withWeapon (w : Weapon) (p : Player) : Player :=
  mkPlayer (asset p) (spriteX p) (spriteY p) (frame p) (animKey p) (flipX p)
           (body p) w (hitPoints p) (attackEnabled p)
           (currentState p) (elapsedTime p).

Definition withHitPoints (h : Z) (p : Player) : Player :=
  mkPlayer (asset p) (spriteX p) (spriteY p) (frame p) (animKey p) (flipX p)
           (body p) (weapon p) h (attackEnabled p)
           (currentState p) (elapsedTime p).

Definition withCurrentState (s : PlayerState) (p : Player) : Player :=
  mkPlayer (asset p) (spriteX p) (spriteY p) (frame p) (animKey p) (flipX p)
           (body p) (weapon p) (hitPoints p) (attackEnabled p)
           s (elapsedTime p).

Definition withElapsedTime (t : R) (p : Player) : Player :=
  mkPlayer (asset p) (spriteX p) (spriteY p) (frame p) (animKey p) (flipX p)
           (body p) (weapon p) (hitPoints p) (attackEnabled p)
           (currentState p) t.

(** [this.getBody()]. *)
Definition getBody (p : Player) : Body := body p.

Definition setVelocity (vx vy : R) (p : Player) : Player :=
  withBody (Body_setVelocity vx vy (getBody p)) p.

(** [this.getBody().velocity.normalize().scale(s)], in place. *)
Definition velocity_normalize_scale (s : R) (p : Player) : Player :=
  withBody (Body_withVelocity
              (Vector2_scale s (Vector2_normalize (velocity (getBody p))))
              (getBody p)) p.

Definition setImmovable (value : bool) (p : Player) : Player :=
  withBody (Body_setImmovable value (getBody p)) p.

(** *** Methods *)

(** The constructor. *)
Definition newPlayer (x y : R) (config : PlayerConfig) : Player :=
  mkPlayer (cfgAsset config) x y None None false
           (mkBody (mkVector2 0 0) false true
                   (cfgBodyWidth config) (cfgBodyHeight config)
                   (cfgBodyOffsetX config) (cfgBodyOffsetY config))
           (Weapon_new (RegularSword data))
           MAX_HIT_POINTS true Default 0%R.

Definition getIdleAnimationKey (p : Player) : string :=
  (asset p ++ ":" ++ IdleAnimationPrefix data)%string.

Definition getRunAnimationKey (p : Player) : string :=
  (asset p ++ ":" ++ RunAnimationPrefix data)%string.

(** [receiveDamage(damage)]: the object after the call and the effects of
    the call in program order. *)
Definition receiveDamage (scene : Scene) (damage : Z) (p : Player)
  : Player * list Effect :=
  let p1 := setFrame (asset p ++ HitFrameKey data)%string p in
  let p2 := withHitPoints (Z.max 0 (hitPoints p1 - damage)) p1 in
  let cam := mainCamera scene in
  let cameraTopLeftX := worldViewX cam in
  let cameraTopLeftY := worldViewY cam in
  let ratioX := ((spriteX p2 - cameraTopLeftX) / camWidth cam)%R in
  let ratioY := ((spriteY p2 - cameraTopLeftY) / camHeight cam)%R in
  let canvasWidth := (camWidth cam * zoom cam)%R in
  let canvasHeight := (camHeight cam * zoom cam)%R in
  (p2,
   [PlaySound DamagePlayer]
   ++ (if hitPoints p2 =? 0 then [Emit (PlayerDies scene)] else [])
   ++ [Emit (Damage damage (ratioX * canvasWidth) (ratioY * canvasHeight)
                    16711680);
       Emit (PlayerHpChange (hitPoints p2))]).

(** The first block of [update]: the velocity ladder of the [Default]
    state, the stop of the [Talking] state and the timer test of the
    [FinishTalking] state. *)
Definition update_velocity (keys : Keys) (p : Player) : Player :=
  match currentState p with
  | Default =>
      if keyW keys && keyA keys then
        velocity_normalize_scale MOVE_SPEED (setVelocity (-1) (-1) p)
      else if keyS keys && keyA keys then
        velocity_normalize_scale MOVE_SPEED (setVelocity (-1) 1 p)
      else if keyS keys && keyD keys then
        velocity_normalize_scale MOVE_SPEED (setVelocity 1 1 p)
      else if keyW keys && keyD keys then
        velocity_normalize_scale MOVE_SPEED (setVelocity 1 (-1) p)
      else if keyW keys then setVelocity 0 (- MOVE_SPEED) p
      else if keyA keys then setVelocity (- MOVE_SPEED) 0 p
      else if keyS keys then setVelocity 0 MOVE_SPEED p
      else if keyD keys then setVelocity MOVE_SPEED 0 p
      else setVelocity 0 0 p
  | Talking => setVelocity 0 0 p
  | FinishTalking =>
      if Rgt_dec (elapsedTime p) 200 then withCurrentState Default p
      else p
  end.

(** The second block: "update flip x". *)
Definition update_flipX (p : Player) : Player :=
  if Rgt_dec (vecX (velocity (getBody p))) 0 then
    withWeapon (Weapon_setFlipX false (weapon p)) (setFlipX false p)
  else if Rlt_dec (vecX (velocity (getBody p))) 0 then
    withWeapon (Weapon_setFlipX true (weapon p)) (setFlipX true p)
  else p.

(** The third block: "update frame and physics body". *)
Definition update_frame (p : Player) : Player :=
  if Req_dec_T (vecX (velocity (getBody p))) 0 then
    if Req_dec_T (vecY (velocity (getBody p))) 0 then
      setImmovable true (anims_play (getIdleAnimationKey p) p)
    else setImmovable false (anims_play (getRunAnimationKey p) p)
  else setImmovable false (anims_play (getRunAnimationKey p) p).

(** [update(delta)], called every frame with the keys as they are held. *)
Definition update (delta : R) (keys : Keys) (p : Player) : Player :=
  let p1 := update_velocity keys p in
  let p2 := update_flipX p1 in
  let p3 := update_frame p2 in
  let p4 := withWeapon (Weapon_update keys p3 (attackEnabled p3) (weapon p3)) p3 in
  withElapsedTime (elapsedTime p4 + delta)%R p4.

Definition isActionKeyDown (keys : Keys) : bool := keyJ keys.

Definition getWeapon (p : Player) : Weapon := weapon p.

Definition setAttackEnabled (enabled : bool) (p : Player) : Player :=
  mkPlayer (asset p) (spriteX p) (spriteY p) (frame p) (animKey p) (flipX p)
           (body p) (weapon p) (hitPoints p) enabled
           (currentState p) (elapsedTime p).

(** The callback for the [ItemSlotChange] event. *)
Definition handleItemSlotChange (d : ItemSlotChange) (p : Player) : Player :=
  match currentWeaponAsset d with
  | Some a =>
      if truthy (currentWeaponAsset d) then
        withWeapon (Weapon_setVisible true
                      (Weapon_setBodyEnable true
                         (Weapon_setModel a (weapon p)))) p
      else
        withWeapon (Weapon_setBodyEnable false
                      (Weapon_setVisible false (weapon p))) p
  | None =>
      withWeapon (Weapon_setBodyEnable false
                    (Weapon_setVisible false (weapon p))) p
  end.

Definition setCurrentState (state : PlayerState) (p : Player) : Player :=
  withElapsedTime 0%R (withCurrentState state p).

Definition getCurrentState (p : Player) : PlayerState := currentState p.

(** *** Sequences of calls *)

Definition perform (c : Call) (p : Player) : Player * list Effect :=
  match c with
  | CallReceiveDamage scene damage => receiveDamage scene damage p
  | CallUpdate delta keys => (update delta keys p, [])
  | CallSetAttackEnabled enabled => (setAttackEnabled enabled p, [])
  | CallItemSlotChange d => (handleItemSlotChange d p, [])
  | CallSetCurrentState state => (setCurrentState state p, [])
  end.

(** The states an object can be in: a fresh object, and the result of any
    call on such a state. *)
Inductive reachable : Player -> Prop :=
| reachable_new : forall x y config, reachable (newPlayer x y config)
| reachable_call : forall c p, reachable p -> reachable (fst (perform c p)).

(** Successive [receiveDamage] calls: the object at the end, the effects of
    all calls in order, and the hit points after each call. *)
Fixpoint receiveDamages (scene : Scene) (damages : list Z) (p : Player)
  : Player * list Effect * list Z :=
  match damages with
  | [] => (p, [], [])
  | d :: rest =>
      let '(p1, log1) := receiveDamage scene d p in
      let '(p2, log2, hps) := receiveDamages scene rest p1 in
      (p2, log1 ++ log2, hitPoints p1 :: hps)
  end.

(** Successive frames: [update] once per entry, each with its own keys. *)
Fixpoint updates (ticks : list (R * Keys)) (p : Player) : Player :=
  match ticks with
  | [] => p
  | (delta, keys) :: rest => updates rest (update delta keys p)
  end.

Definition facing (p : Player) : Facing :=
  if flipX p then FacingLeft else FacingRight.

Definition weaponFacing (p : Player) : Facing :=
  if weaponFlipX (weapon p) then FacingLeft else FacingRight.

End PlayerObject.

Arguments Weapon : clear implicits.
Arguments Player : clear implicits.
Arguments Collaborators : clear implicits.

(** ** A concrete game

    A weapon with nothing of its own beside the sprite, whose methods do
    nothing, and the asset names of the knight. *)

Definition knightConstants : AssetConstants :=
  mkAssetConstants "_hit_anim_f0" "idle" "run" "weapon_regular_sword".

Definition plainWeapon : Collaborators unit :=
  mkCollaborators knightConstants
    (fun _ => mkWeapon false true true tt)
    (fun _ w => w)
    (fun _ _ _ w => w).

Definition knightConfig : PlayerConfig :=
  mkPlayerConfig "knight_m" 16 16 0 12.

Definition theScene : Scene := mkScene (mkCamera 0 0 320 240 2).

Definition noKeys : Keys := mkKeys false false false false false.
Definition onlyD : Keys := mkKeys false false false true false.
Definition upAndDown : Keys := mkKeys true false true false false.
Definition leftAndRight : Keys := mkKeys false true false true false.
Definition upAndLeft : Keys := mkKeys true true false false false.

(** A fresh knight in the concrete game. *)
Definition knight : Player unit :=
  newPlayer (env := plainWeapon) 100 100 knightConfig.

(** The knight after one frame of walking right and the end of a talk. *)
Definition walkingKnight : Player unit :=
  update (env := plainWeapon) 16 onlyD knight.

Definition slidingKnight : Player unit :=
  setCurrentState FinishTalking walkingKnight.

(** The knight in the middle of a talk. *)
Definition talkingKnight : Player unit :=
  setCurrentState Talking walkingKnight.

(** The knight after a blow of 8. *)
Definition deadKnight : Player unit :=
  fst (receiveDamage (env := plainWeapon) theScene 8 knight).

(** ** The velocity ladder in closed form *)

(** The length of each component of a diagonal of magnitude [MOVE_SPEED]. *)
Definition diagonalSpeed : R := (MOVE_SPEED / sqrt 2)%R.

(** The velocity the [Default] state resolves the keys to: the first rung
    that matches, in the order up+left, down+left, down+right, up+right,
    up, left, down, right. *)
Definition ladderVelocity (keys : Keys) : Vector2 :=
  if keyW keys && keyA keys then
    mkVector2 (- diagonalSpeed) (- diagonalSpeed)
  else if keyS keys && keyA keys then
    mkVector2 (- diagonalSpeed) diagonalSpeed
  else if keyS keys && keyD keys then
    mkVector2 diagonalSpeed diagonalSpeed
  else if keyW keys && keyD keys then
    mkVector2 diagonalSpeed (- diagonalSpeed)
  else if keyW keys then mkVector2 0 (- MOVE_SPEED)
  else if keyA keys then mkVector2 (- MOVE_SPEED) 0
  else if keyS keys then mkVector2 0 MOVE_SPEED
  else if keyD keys then mkVector2 MOVE_SPEED 0
  else mkVector2 0 0.

(** ** Runs of calls and what a listener reads off the log *)

(** The hit points the [PlayerHpChange] events of a log carry, in order. *)
Fixpoint hpChangePayloads (log : list Effect) : list Z :=
  match log with
  | [] => []
  | Emit (PlayerHpChange h) :: rest => h :: hpChangePayloads rest
  | _ :: rest => hpChangePayloads rest
  end.

(** The amounts the [Damage] events of a log carry, in order. *)
Fixpoint damagePayloads (log : list Effect) : list Z :=
  match log with
  | [] => []
  | Emit (Damage d _ _ _) :: rest => d :: damagePayloads rest
  | _ :: rest => damagePayloads rest
  end.

(** The sounds a log plays, in order. *)
Fixpoint soundsPlayed (log : list Effect) : list AudioAsset :=
  match log with
  | [] => []
  | PlaySound a :: rest => a :: soundsPlayed rest
  | _ :: rest => soundsPlayed rest
  end.

(** A call that is no [receiveDamage] with a negative amount. *)
Definition damageNonNegative (c : Call) : bool :=
  match c with
  | CallReceiveDamage _ damage => 0 <=? damage
  | _ => true
  end.

(** The directions the ladder resolves the keys to, read off its rungs:
    left whenever the left key is down, right when the right key is down
    and the left key is not; up when the up key is down unless down and
    right are down without left, down when the down key is down unless up
    wins. *)
Definition movesLeft (keys : Keys) : bool := keyA keys.

Definition movesRight (keys : Keys) : bool := negb (keyA keys) && keyD keys.

Definition movesUp (keys : Keys) : bool :=
  keyW keys && (keyA keys || negb (keyS keys && keyD keys)).

Definition movesDown (keys : Keys) : bool :=
  keyS keys && (negb (keyW keys) || (negb (keyA keys) && keyD keys)).

Section PlayerRuns.

Context {WeaponInternal : Type} {env : Collaborators WeaponInternal}.

(** Any calls one after the other: the object at the end and the effects
    of all calls in order. *)
Fixpoint performAll (calls : list Call) (p : Player WeaponInternal)
  : Player WeaponInternal * list Effect :=
  match calls with
  | [] => (p, [])
  | c :: rest =>
      let '(p1, log1) := perform c p in
      let '(p2, log2) := performAll rest p1 in
      (p2, log1 ++ log2)
  end.

(** The player as a talk holds it, relative to the object [p0] the talk
    began with. *)
Definition heldStill (p0 p : Player WeaponInternal) : Prop :=
  velocity (body p) = mkVector2 0 0 /\ immovable (body p) = true /\
  animKey p = Some (getIdleAnimationKey p0) /\ flipX p = flipX p0 /\
  asset p = asset p0.

End PlayerRuns.

(** ** The earlier player class

    The class as an earlier revision of the file has it: hit and magic
    points with their maxima, no behaviour state, a weapon passed to the
    constructor, and a [receiveDamage] that switches scenes itself.  Its
    [Weapon] and the constants of its [PlayerAssetData] are parameters, as
    above. *)

Module Legacy.

(** The payloads of [DamageEventData] and [PlayerHpChangeEventData]. *)
Inductive Event :=
| Damage (damage : Z) (x y : R) (color : Z)
| PlayerHpChange (hitPoints maxHitPoints : Z).

(** The effects of a method in program order: the scene manager's [stop]
    and [start], the sound, the dispatcher's [emit]. *)
Inductive Effect :=
| SceneStop (key : string)
| SceneStart (key : string)
| PlaySound (a : AudioAsset)
| Emit (e : Event).

Definition isSceneStart (f : Effect) : bool :=
  match f with SceneStart _ => true | _ => false end.

(** The payloads of the [PlayerHpChange] events of a log, in order. *)
Fixpoint hpChangePayloads (log : list Effect) : list (Z * Z) :=
  match log with
  | [] => []
  | Emit (PlayerHpChange h m) :: rest => (h, m) :: hpChangePayloads rest
  | _ :: rest => hpChangePayloads rest
  end.

(** The scenes a log starts, in order. *)
Fixpoint scenesStarted (log : list Effect) : list string :=
  match log with
  | [] => []
  | SceneStart key :: rest => key :: scenesStarted rest
  | _ :: rest => scenesStarted rest
  end.

Section LegacyObject.

Context {WeaponInternal : Type} {Frame : Type}.

Record Player := mkPlayer {
  asset : string;
  spriteX : R;
  spriteY : R;
  frame : option Frame;
  animKey : option string;
  flipX : bool;
  body : Body;
  weapon : Weapon WeaponInternal;
  hitPoints : Z;
  maxHitPoints : Z;
  magicPoints : Z;
  maxMagicPoints : Z
}.

(** [PlayerAssetData.HitFrame], [PlayerAssetData.FrameHeight] and
    [weapon.update(player)], with the keys the weapon can poll through
    [player.isActivatingWeapon()]. *)
Class Collaborators := mkCollaborators {
  HitFrame : Frame;
  FrameHeight : R;
  Weapon_update : Keys -> Player -> Weapon WeaponInternal
                  -> Weapon WeaponInternal
}.

Context {env : Collaborators}.

Definition MOVE_SPEED : R := 64%R.
Definition WEAPON_ROTATION_SPEED : R := 16%R.
Definition COLLISION_BODY_WIDTH : R := 16%R.
Definition COLLISION_BODY_HEIGHT : R := 16%R.

Definition withBody (b : Body) (p : Player) : Player :=
  mkPlayer (asset p) (spriteX p) (spriteY p) (frame p) (animKey p) (flipX p)
           b (weapon p) (hitPoints p) (maxHitPoints p)
           (magicPoints p) (maxMagicPoints p).

Definition withFlips (value : bool) (p : Player) : Player :=
  mkPlayer (asset p) (spriteX p) (spriteY p) (frame p) (animKey p) value
           (body p) (Weapon_setFlipX value (weapon p))
           (hitPoints p) (maxHitPoints p)
           (magicPoints p) (maxMagicPoints p).

Definition anims_play (key : string) (p : Player) : Player :=
  mkPlayer (asset p) (spriteX p) (spriteY p) (frame p) (Some key) (flipX p)
           (body p) (weapon p) (hitPoints p) (maxHitPoints p)
           (magicPoints p) (maxMagicPoints p).

Definition withWeapon (w : Weapon WeaponInternal) (p : Player) : Player :=
  mkPlayer (asset p) (spriteX p) (spriteY p) (frame p) (animKey p) (flipX p)
           (body p) w (hitPoints p) (maxHitPoints p)
           (magicPoints p) (maxMagicPoints p).

Definition setVelocity (vx vy : R) (p : Player) : Player :=
  withBody (Body_setVelocity vx vy (body p)) p.

Definition velocity_normalize_scale (s : R) (p : Player) : Player :=
  withBody (Body_withVelocity
              (Vector2_scale s (Vector2_normalize (velocity (body p))))
              (body p)) p.

Definition setImmovable (value : bool) (p : Player) : Player :=
  withBody (Body_setImmovable value (body p)) p.

(** The constructor. *)
Definition newPlayer (x y : R) (a : string) (w : Weapon WeaponInternal)
  : Player :=
  mkPlayer a x y None None false
           (mkBody (mkVector2 0 0) true true
                   COLLISION_BODY_WIDTH COLLISION_BODY_HEIGHT
                   0 (FrameHeight - COLLISION_BODY_HEIGHT))
           w 100 100 100 100.

(** [receiveDamage(damage)]. *)
Definition receiveDamage (damage : Z) (p : Player) : Player * list Effect :=
  let h := Z.max 0 (hitPoints p - damage) in
  let p' :=
    mkPlayer (asset p) (spriteX p) (spriteY p) (Some HitFrame) (animKey p)
             (flipX p) (body p) (weapon p) h (maxHitPoints p)
             (magicPoints p) (maxMagicPoints p) in
  (p',
   (if h =? 0 then [SceneStop "UIScene"; SceneStart "GameOverScene"] else [])
   ++ [PlaySound DamagePlayer;
       Emit (Damage damage (spriteX p') (spriteY p') 16711680);
       Emit (PlayerHpChange (hitPoints p') (maxHitPoints p'))]).

(** The three blocks of [update()]. *)
Definition update_velocity (keys : Keys) (p : Player) : Player :=
  if keyW keys && keyA keys then
    velocity_normalize_scale MOVE_SPEED (setVelocity (-1) (-1) p)
  else if keyS keys && keyA keys then
    velocity_normalize_scale MOVE_SPEED (setVelocity (-1) 1 p)
  else if keyS keys && keyD keys then
    velocity_normalize_scale MOVE_SPEED (setVelocity 1 1 p)
  else if keyW keys && keyD keys then
    velocity_normalize_scale MOVE_SPEED (setVelocity 1 (-1) p)
  else if keyW keys then setVelocity 0 (- MOVE_SPEED) p
  else if keyA keys then setVelocity (- MOVE_SPEED) 0 p
  else if keyS keys then setVelocity 0 MOVE_SPEED p
  else if keyD keys then setVelocity MOVE_SPEED 0 p
  else setVelocity 0 0 p.

Definition update_flipX (p : Player) : Player :=
  if Rgt_dec (vecX (velocity (body p))) 0 then withFlips false p
  else if Rlt_dec (vecX (velocity (body p))) 0 then withFlips true p
  else p.

Definition update_frame (p : Player) : Player :=
  if Req_dec_T (vecX (velocity (body p))) 0 then
    if Req_dec_T (vecY (velocity (body p))) 0 then
      setImmovable true (anims_play (asset p ++ ":idle") p)
    else setImmovable false (anims_play (asset p ++ ":run") p)
  else setImmovable false (anims_play (asset p ++ ":run") p).

Definition update (keys : Keys) (p : Player) : Player :=
  let p3 := update_frame (update_flipX (update_velocity keys p)) in
  withWeapon (Weapon_update keys p3 (weapon p3)) p3.

Definition getWeapon (p : Player) : Weapon WeaponInternal := weapon p.

(** Successive [receiveDamage] calls: the object at the end and the
    effects of all calls in order. *)
Fixpoint receiveDamages (damages : list Z) (p : Player)
  : Player * list Effect :=
  match damages with
  | [] => (p, [])
  | d :: rest =>
      let '(p1, log1) := receiveDamage d p in
      let '(p2, log2) := receiveDamages rest p1 in
      (p2, log1 ++ log2)
  end.

(** The hit points after each of successive [receiveDamage] calls. *)
Fixpoint hitPointsAfter (damages : list Z) (h : Z) : list Z :=
  match damages with
  | [] => []
  | d :: rest => Z.max 0 (h - d) :: hitPointsAfter rest (Z.max 0 (h - d))
  end.

End LegacyObject.

Arguments Player : clear implicits.
Arguments Collaborators : clear implicits.

End Legacy.

(** A weapon of the earlier class that does nothing, for the concrete
    game. *)
Definition plainLegacyWeapon : Legacy.Collaborators unit nat :=
  Legacy.mkCollaborators 8%nat 28%R (fun _ _ w => w).

Definition legacyKnight : Legacy.Player unit nat :=
  Legacy.newPlayer (env := plainLegacyWeapon) 100 100 "knight_m"
                   (mkWeapon false true true tt).

(** ** The class on binary64 numbers

    The same class with every JavaScript number a binary64 float and every
    operation the rounded one of the machine: what the hit points, the
    velocity, the elapsed time and the event payloads hold bit for bit.
    The claims that rest on the value of a sum, a product or a square root
    are settled here. *)

Module F64.

Local Open Scope float_scope.

(** [Math.max] of two numbers: NaN when either is, the larger otherwise,
    and +0 rather than -0 when they are the two zeroes. *)
Definition Math_max (a b : float) : float :=
  if PrimFloat.is_nan a || PrimFloat.is_nan b then PrimFloat.nan
  else if b <? a then a
  else if a <? b then b
  else if PrimFloat.get_sign a then b else a.

(** [Phaser.Math.Vector2] and its [normalize], [scale] (by a finite
    factor) and [length]. *)
Record Vector2 := mkVector2 { vecX : float; vecY : float }.

Definition Vector2_normalize (v : Vector2) : Vector2 :=
  let len := vecX v * vecX v + vecY v * vecY v in
  if 0 <? len then
    let len' := 1 / PrimFloat.sqrt len in
    mkVector2 (vecX v * len') (vecY v * len')
  else v.

Definition Vector2_scale (value : float) (v : Vector2) : Vector2 :=
  mkVector2 (vecX v * value) (vecY v * value).

Definition Vector2_length (v : Vector2) : float :=
  PrimFloat.sqrt (vecX v * vecX v + vecY v * vecY v).

Record Body := mkBody {
  velocity : Vector2;
  immovable : bool;
  collideWorldBounds : bool;
  bodyWidth : float;
  bodyHeight : float;
  bodyOffsetX : float;
  bodyOffsetY : float
}.

Definition Body_withVelocity (v : Vector2) (b : Body) : Body :=
  mkBody v (immovable b) (collideWorldBounds b)
         (bodyWidth b) (bodyHeight b) (bodyOffsetX b) (bodyOffsetY b).

Definition Body_setVelocity (vx vy : float) (b : Body) : Body :=
  Body_withVelocity (mkVector2 vx vy) b.

Definition Body_setImmovable (value : bool) (b : Body) : Body :=
  mkBody (velocity b) value (collideWorldBounds b)
         (bodyWidth b) (bodyHeight b) (bodyOffsetX b) (bodyOffsetY b).

Record Camera := mkCamera {
  worldViewX : float;
  worldViewY : float;
  camWidth : float;
  camHeight : float;
  zoom : float
}.

Record Scene := mkScene { mainCamera : Camera }.

Record PlayerConfig := mkPlayerConfig {
  cfgAsset : string;
  cfgBodyWidth : float;
  cfgBodyHeight : float;
  cfgBodyOffsetX : float;
  cfgBodyOffsetY : float
}.

Inductive Event :=
| PlayerDies (scene : Scene)
| Damage (damage : float) (x y : float) (color : float)
| PlayerHpChange (currentHitPoints : float).

Inductive Effect :=
| PlaySound (a : AudioAsset)
| Emit (e : Event).

(** The value of the elapsed-time counter at the start of each frame, when
    it is [t0] before the first one and the frames last [deltas]: the
    deltas added one by one, each sum rounded. *)
Fixpoint startTimes (t0 : float) (deltas : list float) : list float :=
  match deltas with
  | [] => []
  | d :: rest => t0 :: startTimes (t0 + d) rest
  end.

Definition MAX_HIT_POINTS : float := 8.
Definition MOVE_SPEED : float := 64.

(** What [normalize().scale(MOVE_SPEED)] leaves in each component of a
    diagonal, and the length of that diagonal: one rounding step below
    [MOVE_SPEED]. *)
Definition diagonalSpeed : float := 0x1.6a09e667f3bccp+5.
Definition diagonalLength : float := 0x1.fffffffffffffp+5.

Definition onDiagonalRung (keys : Keys) : bool :=
  (keyW keys && keyA keys) || (keyS keys && keyA keys)
  || (keyS keys && keyD keys) || (keyW keys && keyD keys).

(** The velocity the [Default] state resolves the keys to, rung by rung. *)
Definition ladderVelocity (keys : Keys) : Vector2 :=
  if keyW keys && keyA keys then
    mkVector2 (- diagonalSpeed) (- diagonalSpeed)
  else if keyS keys && keyA keys then
    mkVector2 (- diagonalSpeed) diagonalSpeed
  else if keyS keys && keyD keys then
    mkVector2 diagonalSpeed diagonalSpeed
  else if keyW keys && keyD keys then
    mkVector2 diagonalSpeed (- diagonalSpeed)
  else if keyW keys then mkVector2 0 (- MOVE_SPEED)
  else if keyA keys then mkVector2 (- MOVE_SPEED) 0
  else if keyS keys then mkVector2 0 MOVE_SPEED
  else if keyD keys then mkVector2 MOVE_SPEED 0
  else mkVector2 0 0.

Section PlayerObject.

Context {WeaponInternal : Type}.

Record Player := mkPlayer {
  asset : string;
  spriteX : float;
  spriteY : float;
  frame : option string;
  animKey : option string;
  flipX : bool;
  body : Body;
  weapon : Weapon WeaponInternal;
  hitPoints : float;
  attackEnabled : bool;
  currentState : PlayerState;
  elapsedTime : float
}.

Class Collaborators := mkCollaborators {
  data : AssetConstants;
  Weapon_new : string -> Weapon WeaponInternal;
  Weapon_setModel : string -> Weapon WeaponInternal -> Weapon WeaponInternal;
  Weapon_update : Keys -> Player -> bool -> Weapon WeaponInternal
                  -> Weapon WeaponInternal
}.

Context {env : Collaborators}.

Definition setFrame (f : string) (p : Player) : Player :=
  mkPlayer (asset p) (spriteX p) (spriteY p) (Some f) (animKey p) (flipX p)
           (body p) (weapon p) (hitPoints p) (attackEnabled p)
           (currentState p) (elapsedTime p).

Definition anims_play (key : string) (p : Player) : Player :=
  mkPlayer (asset p) (spriteX p) (spriteY p) (frame p) (Some key) (flipX p)
           (body p) (weapon p) (hitPoints p) (attackEnabled p)
           (currentState p) (elapsedTime p).

Definition setFlipX (value : bool) (p : Player) : Player :=
  mkPlayer (asset p) (spriteX p) (spriteY p) (frame p) (animKey p) value
           (body p) (weapon p) (hitPoints p) (attackEnabled p)
           (currentState p) (elapsedTime p).

Definition withBody (b : Body) (p : Player) : Player :=
  mkPlayer (asset p) (spriteX p) (spriteY p) (frame p) (animKey p) (flipX p)
           b (weapon p) (hitPoints p) (attackEnabled p)
           (currentState p) (elapsedTime p).

Definition withWeapon (w : Weapon WeaponInternal) (p : Player) : Player :=
  mkPlayer (asset p) (spriteX p) (spriteY p) (frame p) (animKey p) (flipX p)
           (body p) w (hitPoints p) (attackEnabled p)
           (currentState p) (elapsedTime p).

Definition withHitPoints (h : float) (p : Player) : Player :=
  mkPlayer (asset p) (spriteX p) (spriteY p) (frame p) (animKey p) (flipX p)
           (body p) (weapon p) h (attackEnabled p)
           (currentState p) (elapsedTime p).

Definition withCurrentState (s : PlayerState) (p : Player) : Player :=
  mkPlayer (asset p) (spriteX p) (spriteY p) (frame p) (animKey p) (flipX p)
           (body p) (weapon p) (hitPoints p) (attackEnabled p)
           s (elapsedTime p).

Definition withElapsedTime (t : float) (p : Player) : Player :=
  mkPlayer (asset p) (spriteX p) (spriteY p) (frame p) (animKey p) (flipX p)
           (body p) (weapon p) (hitPoints p) (attackEnabled p)
           (currentState p) t.

Definition getBody (p : Player) : Body := body p.

Definition setVelocity (vx vy : float) (p : Player) : Player :=
  withBody (Body_setVelocity vx vy (getBody p)) p.

Definition velocity_normalize_scale (s : float) (p : Player) : Player :=
  withBody (Body_withVelocity
              (Vector2_scale s (Vector2_normalize (velocity (getBody p))))
              (getBody p)) p.

Definition setImmovable (value : bool) (p : Player) : Player :=
  withBody (Body_setImmovable value (getBody p)) p.

(** The constructor. *)
Definition newPlayer (x y : float) (config : PlayerConfig) : Player :=
  mkPlayer (cfgAsset config) x y None None false
           (mkBody (mkVector2 0 0) false true
                   (cfgBodyWidth config) (cfgBodyHeight config)
                   (cfgBodyOffsetX config) (cfgBodyOffsetY config))
           (Weapon_new (RegularSword data))
           MAX_HIT_POINTS true Default 0.

Definition getIdleAnimationKey (p : Player) : string :=
  (asset p ++ ":" ++ IdleAnimationPrefix data)%string.

Definition getRunAnimationKey (p : Player) : string :=
  (asset p ++ ":" ++ RunAnimationPrefix data)%string.

(** [receiveDamage(damage)]. *)
Definition receiveDamage (scene : Scene) (damage : float) (p : Player)
  : Player * list Effect :=
  let p1 := setFrame (asset p ++ HitFrameKey data)%string p in
  let p2 := withHitPoints (Math_max 0 (hitPoints p1 - damage)) p1 in
  let cam := mainCamera scene in
  let cameraTopLeftX := worldViewX cam in
  let cameraTopLeftY := worldViewY cam in
  let ratioX := (spriteX p2 - cameraTopLeftX) / camWidth cam in
  let ratioY := (spriteY p2 - cameraTopLeftY) / camHeight cam in
  let canvasWidth := camWidth cam * zoom cam in
  let canvasHeight := camHeight cam * zoom cam in
  (p2,
   [PlaySound DamagePlayer]
   ++ (if hitPoints p2 =? 0 then [Emit (PlayerDies scene)] else [])
   ++ [Emit (Damage damage (ratioX * canvasWidth) (ratioY * canvasHeight)
                    16711680);
       Emit (PlayerHpChange (hitPoints p2))]).

(** The three blocks of [update(delta)] and the call itself. *)
Definition update_velocity (keys : Keys) (p : Player) : Player :=
  match currentState p with
  | Default =>
      if keyW keys && keyA keys then
        velocity_normalize_scale MOVE_SPEED (setVelocity (-1) (-1) p)
      else if keyS keys && keyA keys then
        velocity_normalize_scale MOVE_SPEED (setVelocity (-1) 1 p)
      else if keyS keys && keyD keys then
        velocity_normalize_scale MOVE_SPEED (setVelocity 1 1 p)
      else if keyW keys && keyD keys then
        velocity_normalize_scale MOVE_SPEED (setVelocity 1 (-1) p)
      else if keyW keys then setVelocity 0 (- MOVE_SPEED) p
      else if keyA keys then setVelocity (- MOVE_SPEED) 0 p
      else if keyS keys then setVelocity 0 MOVE_SPEED p
      else if keyD keys then setVelocity MOVE_SPEED 0 p
      else setVelocity 0 0 p
  | Talking => setVelocity 0 0 p
  | FinishTalking =>
      if 200 <? elapsedTime p then withCurrentState Default p
      else p
  end.

Definition update_flipX (p : Player) : Player :=
  if 0 <? vecX (velocity (getBody p)) then
    withWeapon (Weapon_setFlipX false (weapon p)) (setFlipX false p)
  else if vecX (velocity (getBody p)) <? 0 then
    withWeapon (Weapon_setFlipX true (weapon p)) (setFlipX true p)
  else p.

Definition update_frame (p : Player) : Player :=
  if (vecX (velocity (getBody p)) =? 0)
     && (vecY (velocity (getBody p)) =? 0) then
    setImmovable true (anims_play (getIdleAnimationKey p) p)
  else setImmovable false (anims_play (getRunAnimationKey p) p).

Definition update (delta : float) (keys : Keys) (p : Player) : Player :=
  let p1 := update_velocity keys p in
  let p2 := update_flipX p1 in
  let p3 := update_frame p2 in
  let p4 :=
    withWeapon (Weapon_update keys p3 (attackEnabled p3) (weapon p3)) p3 in
  withElapsedTime (elapsedTime p4 + delta) p4.

Definition setAttackEnabled (enabled : bool) (p : Player) : Player :=
  mkPlayer (asset p) (spriteX p) (spriteY p) (frame p) (animKey p) (flipX p)
           (body p) (weapon p) (hitPoints p) enabled
           (currentState p) (elapsedTime p).

Definition handleItemSlotChange (d : ItemSlotChange) (p : Player) : Player :=
  match currentWeaponAsset d with
  | Some a =>
      if truthy (currentWeaponAsset d) then
        withWeapon (Weapon_setVisible true
                      (Weapon_setBodyEnable true
                         (Weapon_setModel a (weapon p)))) p
      else
        withWeapon (Weapon_setBodyEnable false
                      (Weapon_setVisible false (weapon p))) p
  | None =>
      withWeapon (Weapon_setBodyEnable false
                    (Weapon_setVisible false (weapon p))) p
  end.

Definition setCurrentState (state : PlayerState) (p : Player) : Player :=
  withElapsedTime 0 (withCurrentState state p).

Definition getCurrentState (p : Player) : PlayerState := currentState p.

(** Successive frames. *)
Fixpoint updates (ticks : list (float * Keys)) (p : Player) : Player :=
  match ticks with
  | [] => p
  | (delta, keys) :: rest => updates rest (update delta keys p)
  end.

End PlayerObject.

Arguments Player : clear implicits.
Arguments Collaborators : clear implicits.

(** The concrete game on binary64 numbers. *)
Definition plainWeapon : Collaborators unit :=
  mkCollaborators knightConstants
    (fun _ => mkWeapon false true true tt)
    (fun _ w => w)
    (fun _ _ _ w => w).

Definition knightConfig : PlayerConfig :=
  mkPlayerConfig "knight_m" 16 16 0 12.

Definition theScene : Scene := mkScene (mkCamera 0 0 320 240 2).

Definition knight : Player unit :=
  newPlayer (env := plainWeapon) 100 100 knightConfig.

Definition talkingKnight : Player unit :=
  setCurrentState Talking (update (env := plainWeapon) 16 onlyD knight).

(** An integer as the float that holds it. *)
Definition ofZ (z : Z) : float :=
  if (z <? 0)%Z then - PrimFloat.of_uint63 (Uint63.of_Z (- z))
  else PrimFloat.of_uint63 (Uint63.of_Z z).

(** The integers from [lo] on, [n] of them. *)
Fixpoint integersFrom (lo : Z) (n : nat) : list Z :=
  match n with
  | O => []
  | S m => lo :: integersFrom (lo + 1)%Z m
  end.

(** A frame at 60 and at 90 frames a second. *)
Definition frame60 : float := 1000 / 60.
Definition frame90 : float := 1000 / 90.

End F64.

(** ** Properties *)

Section PlayerProperties.

Context {WeaponInternal : Type} {env : Collaborators WeaponInternal}.

Local Abbreviation PlayerT := (Player WeaponInternal).

Ltac break_if :=
  match goal with
  | |- context [if ?c then _ else _] => destruct c
  end.

Ltac break_state p :=
  let s := fresh "Hstate" in destruct (currentState p) eqn:s.

(** *** Frame lemmas: what each block of [update] leaves alone *)

Lemma update_velocity_frame (keys : Keys) (p : PlayerT) :
  let p' := update_velocity keys p in
  hitPoints p' = hitPoints p /\ flipX p' = flipX p /\
  weapon p' = weapon p /\ elapsedTime p' = elapsedTime p /\
  asset p' = asset p /\ attackEnabled p' = attackEnabled p.
Proof.
  unfold update_velocity; break_state p; repeat break_if; cbn; intuition.
Qed.

Lemma update_flipX_frame (p : PlayerT) :
  let p' := update_flipX p in
  hitPoints p' = hitPoints p /\ body p' = body p /\
  currentState p' = currentState p /\ elapsedTime p' = elapsedTime p /\
  asset p' = asset p /\ attackEnabled p' = attackEnabled p.
Proof.
  unfold update_flipX; repeat break_if; cbn; intuition.
Qed.

Lemma update_frame_frame (p : PlayerT) :
  let p' := update_frame p in
  hitPoints p' = hitPoints p /\ flipX p' = flipX p /\
  weapon p' = weapon p /\ velocity (body p') = velocity (body p) /\
  currentState p' = currentState p /\ elapsedTime p' = elapsedTime p /\
  asset p' = asset p /\ attackEnabled p' = attackEnabled p.
Proof.
  unfold update_frame; repeat break_if; cbn; intuition.
Qed.

(** [update] as its blocks see it: the fields of the result in terms of
    the intermediate objects. *)
Lemma update_fields (delta : R) (keys : Keys) (p : PlayerT) :
  let p1 := update_velocity keys p in
  let p2 := update_flipX p1 in
  let p3 := update_frame p2 in
  let p' := update delta keys p in
  hitPoints p' = hitPoints p /\
  currentState p' = currentState p1 /\
  velocity (body p') = velocity (body p1) /\
  flipX p' = flipX p2 /\
  body p' = body p3 /\ animKey p' = animKey p3 /\
  weapon p' = Weapon_update keys p3 (attackEnabled p3) (weapon p3) /\
  weapon p3 = weapon p2 /\
  elapsedTime p' = (elapsedTime p + delta)%R.
Proof.
  intros p1 p2 p3 p'.
  destruct (update_velocity_frame keys p) as (H1 & H2 & H3 & H4 & _).
  destruct (update_flipX_frame p1) as (G1 & G2 & G3 & G4 & _).
  destruct (update_frame_frame p2) as (F1 & F2 & F3 & F4 & F5 & F6 & _).
  fold p1 in H1, H2, H3, H4. fold p2 in G1, G2, G3, G4.
  fold p3 in F1, F2, F3, F4, F5, F6.
  subst p'; unfold update; fold p1; fold p2; fold p3; cbn.
  repeat split; try congruence.
Qed.

Lemma perform_hitPoints (c : Call) (p : PlayerT) :
  hitPoints (fst (perform c p)) =
  match c with
  | CallReceiveDamage _ damage => Z.max 0 (hitPoints p - damage)
  | _ => hitPoints p
  end.
Proof.
  destruct c; cbn; try reflexivity.
  - apply (update_fields delta keys p).
  - unfold handleItemSlotChange; destruct (currentWeaponAsset d);
      repeat break_if; reflexivity.
Qed.

(** Hit points are never negative, whatever the calls were. *)
Lemma reachable_hitPoints_nonneg (p : PlayerT) :
  reachable p -> 0 <= hitPoints p.
Proof.
  induction 1 as [x y config | c p Hp IH].
  - cbn; unfold MAX_HIT_POINTS; lia.
  - rewrite perform_hitPoints; destruct c; lia.
Qed.

Lemma receiveDamages_cons (scene : Scene) (d : Z) (rest : list Z)
      (p : PlayerT) :
  receiveDamages scene (d :: rest) p =
  let p1 := fst (receiveDamage scene d p) in
  let r := receiveDamages scene rest p1 in
  (fst (fst r), snd (receiveDamage scene d p) ++ snd (fst r),
   hitPoints p1 :: snd r).
Proof.
  cbn [receiveDamages].
  destruct (receiveDamage scene d p) as [p1 log1]; cbn [fst snd].
  destruct (receiveDamages scene rest p1) as [[p2 log2] hps]; reflexivity.
Qed.

(** Along non-negative amounts the hit points go down, and stay at or
    above 0. *)
Lemma receiveDamages_descend (scene : Scene) (damages : list Z)
      (p : PlayerT) :
  0 <= hitPoints p -> Forall (fun d => 0 <= d) damages ->
  let hps := snd (receiveDamages scene damages p) in
  Sorted Z.ge (hitPoints p :: hps) /\ Forall (fun h => 0 <= h) hps.
Proof.
  revert p; induction damages as [| d rest IH]; intros p Hp Hds.
  - cbn; split; repeat constructor.
  - inversion Hds as [| d0 ds0 Hd Hrest]; subst.
    rewrite receiveDamages_cons; cbn [snd].
    set (p1 := fst (receiveDamage scene d p)).
    assert (E : hitPoints p1 = Z.max 0 (hitPoints p - d)) by reflexivity.
    assert (H1 : 0 <= hitPoints p1) by lia.
    destruct (IH p1 H1 Hrest) as (Hsorted & Hall).
    split.
    + constructor; [exact Hsorted | constructor; lia].
    + constructor; [exact H1 | exact Hall].
Qed.

(** C1.  On an object the game can hold, [receiveDamage d] with [0 <= d]
    sets the hit points to [max 0 (h - d)], where [h] is their value before
    the call; the new value is at most [h] and is not negative; and along
    any further calls with non-negative amounts the hit points never go up
    and never go below 0. *)
Theorem receiveDamage_clamps (scene : Scene) (d : Z) (p : PlayerT) :
  reachable p -> 0 <= d ->
  let h := hitPoints p in
  let h' := hitPoints (fst (receiveDamage scene d p)) in
  h' = Z.max 0 (h - d) /\ h' <= h /\ 0 <= h' /\
  (forall damages, Forall (fun a => 0 <= a) damages ->
     let hps := snd (receiveDamages scene damages p) in
     Sorted Z.ge (h :: hps) /\ Forall (fun a => 0 <= a) hps).
Proof.
  intros Hreach Hd h h'.
  pose proof (reachable_hitPoints_nonneg p Hreach) as Hh.
  assert (E : h' = Z.max 0 (h - d)) by reflexivity.
  fold h in Hh. split; [exact E | split; [lia | split; [lia |]]].
  intros damages Hds; apply receiveDamages_descend; assumption.
Qed.

Lemma countPlayerDies_app (l1 l2 : list Effect) :
  countPlayerDies (l1 ++ l2) = (countPlayerDies l1 + countPlayerDies l2)%nat.
Proof.
  unfold countPlayerDies; rewrite filter_app, length_app; reflexivity.
Qed.

Lemma receiveDamage_log (scene : Scene) (d : Z) (p : PlayerT) :
  let p' := fst (receiveDamage scene d p) in
  exists x y,
    snd (receiveDamage scene d p) =
    PlaySound DamagePlayer ::
    (if hitPoints p' =? 0 then [Emit (PlayerDies scene)] else []) ++
    [Emit (Damage d x y 16711680); Emit (PlayerHpChange (hitPoints p'))].
Proof.
  cbn; eexists; eexists; reflexivity.
Qed.

Lemma receiveDamage_countPlayerDies (scene : Scene) (d : Z) (p : PlayerT) :
  countPlayerDies (snd (receiveDamage scene d p)) =
  if hitPoints (fst (receiveDamage scene d p)) =? 0 then 1%nat else 0%nat.
Proof.
  destruct (receiveDamage_log scene d p) as (x & y & E); rewrite E.
  destruct (hitPoints (fst (receiveDamage scene d p)) =? 0); reflexivity.
Qed.

(** C2, as the code has it.  A [receiveDamage] call emits one [PlayerDies]
    event when the hit points are exactly 0 after it and none otherwise,
    also when they were 0 already before it; so along any sequence of calls
    the [PlayerDies] events are as many as the calls that end at 0. *)
Theorem playerDies_once_per_call_ending_at_zero
        (scene : Scene) (damages : list Z) (p : PlayerT) :
  (forall d,
     countPlayerDies (snd (receiveDamage scene d p)) =
     if hitPoints (fst (receiveDamage scene d p)) =? 0 then 1%nat else 0%nat) /\
  (forall d, hitPoints p = 0 -> 0 <= d ->
     countPlayerDies (snd (receiveDamage scene d p)) = 1%nat) /\
  (let r := receiveDamages scene damages p in
   countPlayerDies (snd (fst r)) = zeroes (snd r)).
Proof.
  split; [| split].
  - intro d; apply receiveDamage_countPlayerDies.
  - intros d Hp Hd; rewrite receiveDamage_countPlayerDies.
    replace (hitPoints (fst (receiveDamage scene d p)))
      with (Z.max 0 (hitPoints p - d)) by reflexivity.
    rewrite Hp; replace (Z.max 0 (0 - d)) with 0 by lia; reflexivity.
  - revert p; induction damages as [| d rest IH]; intro p.
    + reflexivity.
    + rewrite receiveDamages_cons; cbn [fst snd].
      rewrite countPlayerDies_app, IH, receiveDamage_countPlayerDies.
      unfold zeroes; cbn [filter].
      destruct (hitPoints (fst (receiveDamage scene d p)) =? 0); reflexivity.
Qed.

(** C6, as the code has it.  A call that brings the hit points to exactly 0
    emits [PlayerDies] first, then [Damage], then [PlayerHpChange] carrying
    0; a call that leaves them positive emits [Damage] and [PlayerHpChange]
    and no [PlayerDies].  From 8 hit points, [receiveDamage 3] leaves 5 and
    emits [PlayerHpChange 5] without [PlayerDies], and a following
    [receiveDamage 5] leaves 0 and emits [PlayerDies] and then
    [PlayerHpChange 0]. *)
Theorem playerDies_precedes_hpChange (scene : Scene) (d : Z) (p : PlayerT) :
  let p' := fst (receiveDamage scene d p) in
  let log := snd (receiveDamage scene d p) in
  (hitPoints p' = 0 ->
   (exists x y, log = [PlaySound DamagePlayer; Emit (PlayerDies scene);
                       Emit (Damage d x y 16711680);
                       Emit (PlayerHpChange 0)]) /\
   emittedBefore isPlayerDies isPlayerHpChange log = true /\
   emittedBefore isPlayerHpChange isPlayerDies log = false) /\
  (hitPoints p' <> 0 ->
   (exists x y, log = [PlaySound DamagePlayer;
                       Emit (Damage d x y 16711680);
                       Emit (PlayerHpChange (hitPoints p'))]) /\
   countPlayerDies log = 0%nat) /\
  (hitPoints p = 8 ->
   let q := fst (receiveDamage scene 3 p) in
   let r := fst (receiveDamage scene 5 q) in
   hitPoints q = 5 /\ hitPoints r = 0 /\
   (exists x y, snd (receiveDamage scene 3 p) =
                [PlaySound DamagePlayer; Emit (Damage 3 x y 16711680);
                 Emit (PlayerHpChange 5)]) /\
   (exists x y, snd (receiveDamage scene 5 q) =
                [PlaySound DamagePlayer; Emit (PlayerDies scene);
                 Emit (Damage 5 x y 16711680); Emit (PlayerHpChange 0)])).
Proof.
  intros p' log; subst p' log.
  destruct (receiveDamage_log scene d p) as (x & y & E); cbv zeta in E.
  split; [| split].
  - intro H0; rewrite H0 in E; cbn [Z.eqb app] in E; rewrite E.
    split; [exists x, y; reflexivity | split; reflexivity].
  - intro Hn; apply Z.eqb_neq in Hn; rewrite Hn in E; cbn [app] in E.
    rewrite E.
    split; [exists x, y; reflexivity | reflexivity].
  - intro H8; cbn zeta.
    assert (Hq : hitPoints (fst (receiveDamage scene 3 p)) = 5).
    { change (Z.max 0 (hitPoints p - 3) = 5); rewrite H8; reflexivity. }
    assert (Hr : hitPoints (fst (receiveDamage scene 5
                                   (fst (receiveDamage scene 3 p)))) = 0).
    { change (Z.max 0 (hitPoints (fst (receiveDamage scene 3 p)) - 5) = 0).
      rewrite Hq; reflexivity. }
    split; [exact Hq | split; [exact Hr |]].
    split.
    + destruct (receiveDamage_log scene 3 p) as (x1 & y1 & E1).
      rewrite Hq in E1. exists x1, y1; exact E1.
    + destruct (receiveDamage_log scene 5 (fst (receiveDamage scene 3 p)))
        as (x2 & y2 & E2).
      rewrite Hr in E2. exists x2, y2; exact E2.
Qed.

(** C10.  [receiveDamage] does not look at the sign of its argument.  For
    integers in the range where binary64 holds every integer and adds and
    subtracts them exactly (up to 2^53 in size), a call with [d < 0] on
    hit points [h >= 0] with [h - d <= 2^53] leaves [h - d], more than
    before; one such call on a fresh player ends above [MAX_HIT_POINTS];
    and with [0 <= d] the bounds [0 <= hitPoints <= MAX_HIT_POINTS] are
    kept. *)
Theorem receiveDamage_negative_amount_heals
        (scene : Scene) (d : Z) (p : PlayerT) :
  let h := hitPoints p in
  let h' := hitPoints (fst (receiveDamage scene d p)) in
  (d < 0 -> 0 <= h -> 0 <= h - d <= 2 ^ 53 -> h' = h - d /\ h < h') /\
  (forall x y config,
     MAX_HIT_POINTS <
     hitPoints (fst (receiveDamage scene (-1) (newPlayer x y config)))) /\
  (0 <= d -> 0 <= h <= MAX_HIT_POINTS -> 0 <= h' <= MAX_HIT_POINTS).
Proof.
  intros h h'.
  assert (E : h' = Z.max 0 (h - d)) by reflexivity.
  split; [| split].
  - intros Hd Hh Hb; lia.
  - intros x y config; cbn; unfold MAX_HIT_POINTS; lia.
  - intros Hd Hh; lia.
Qed.

(** *** The engine's vectors *)

Lemma sqrt2_pos : (0 < sqrt 2)%R.
Proof. apply sqrt_lt_R0; lra. Qed.

Lemma normalize_unit_diagonal (a b : R) :
  (a * a = 1)%R -> (b * b = 1)%R ->
  Vector2_scale MOVE_SPEED (Vector2_normalize (mkVector2 a b)) =
  mkVector2 (a * diagonalSpeed) (b * diagonalSpeed).
Proof.
  intros Ha Hb; unfold Vector2_normalize, Vector2_scale, diagonalSpeed.
  cbn [vecX vecY].
  pose proof sqrt2_pos as Hs.
  replace (a * a + b * b)%R with 2%R by lra.
  destruct (Rlt_dec 0 2) as [_ | Hn]; [| lra].
  cbn [vecX vecY]; f_equal; field; lra.
Qed.

Lemma diagonalSpeed_pos : (0 < diagonalSpeed)%R.
Proof.
  unfold diagonalSpeed, MOVE_SPEED.
  apply Rdiv_lt_0_compat; [lra | apply sqrt2_pos].
Qed.

(** *** The first block of [update] *)

Lemma update_velocity_Default (keys : Keys) (p : PlayerT) :
  currentState p = Default ->
  velocity (body (update_velocity keys p)) = ladderVelocity keys /\
  currentState (update_velocity keys p) = Default.
Proof.
  intro Hs; unfold update_velocity, ladderVelocity; rewrite Hs.
  unfold velocity_normalize_scale, setVelocity, getBody.
  repeat break_if; cbn; split; try exact Hs;
    try (rewrite normalize_unit_diagonal by lra; f_equal; lra);
    reflexivity.
Qed.

Lemma update_velocity_Talking (keys : Keys) (p : PlayerT) :
  currentState p = Talking ->
  velocity (body (update_velocity keys p)) = mkVector2 0 0 /\
  currentState (update_velocity keys p) = Talking.
Proof.
  intro Hs; unfold update_velocity; rewrite Hs; cbn; split;
    [reflexivity | exact Hs].
Qed.

Lemma update_velocity_FinishTalking (keys : Keys) (p : PlayerT) :
  currentState p = FinishTalking ->
  velocity (body (update_velocity keys p)) = velocity (body p) /\
  ((elapsedTime p <= 200)%R ->
   currentState (update_velocity keys p) = FinishTalking) /\
  ((elapsedTime p > 200)%R ->
   currentState (update_velocity keys p) = Default).
Proof.
  intro Hs; unfold update_velocity; rewrite Hs.
  destruct (Rgt_dec (elapsedTime p) 200) as [Hgt | Hle]; cbn;
    repeat split; intros; try assumption; try reflexivity; lra.
Qed.

(** The velocity [update] leaves is the one its first block resolved. *)
Lemma update_velocity_of_block (delta : R) (keys : Keys) (p : PlayerT) :
  velocity (body (update delta keys p)) =
  velocity (body (update_velocity keys p)).
Proof. apply (update_fields delta keys p). Qed.

Lemma update_currentState_of_block (delta : R) (keys : Keys) (p : PlayerT) :
  currentState (update delta keys p) = currentState (update_velocity keys p).
Proof. apply (update_fields delta keys p). Qed.


Lemma update_FinishTalking_keeps_velocity
      (delta : R) (keys : Keys) (p : PlayerT) :
  currentState p = FinishTalking ->
  velocity (body (update delta keys p)) = velocity (body p).
Proof.
  intro Hs; rewrite update_velocity_of_block.
  apply update_velocity_FinishTalking; exact Hs.
Qed.

Lemma update_Default_velocity (delta : R) (keys : Keys) (p : PlayerT) :
  currentState p = Default ->
  velocity (body (update delta keys p)) = ladderVelocity keys.
Proof.
  intro Hs; rewrite update_velocity_of_block.
  apply update_velocity_Default; exact Hs.
Qed.

(** C3, as the code has it.  While [Talking], [update] leaves the velocity
    at (0,0) whatever the keys and whatever the velocity was.  While
    [FinishTalking], [update] reads no key and writes no velocity: the
    velocity after the call is the velocity before it, so it is (0,0) when
    it was (0,0) before, as it is after any [Talking] frame. *)
Theorem update_velocity_while_talking
        (delta : R) (keys : Keys) (p : PlayerT) :
  (currentState p = Talking ->
   velocity (body (update delta keys p)) = mkVector2 0 0) /\
  (currentState p = FinishTalking ->
   velocity (body (update delta keys p)) = velocity (body p)) /\
  (currentState p = FinishTalking ->
   velocity (body p) = mkVector2 0 0 ->
   velocity (body (update delta keys p)) = mkVector2 0 0).
Proof.
  split; [| split].
  - intro Hs; rewrite update_velocity_of_block.
    apply update_velocity_Talking; exact Hs.
  - apply update_FinishTalking_keeps_velocity.
  - intros Hs Hv; rewrite update_FinishTalking_keeps_velocity by exact Hs.
    exact Hv.
Qed.

(** *** Facing *)

Lemma update_flipX_cases (p : PlayerT) :
  let vx := vecX (velocity (body p)) in
  let p' := update_flipX p in
  ((vx > 0)%R -> flipX p' = false /\ weaponFlipX (weapon p') = false) /\
  ((vx < 0)%R -> flipX p' = true /\ weaponFlipX (weapon p') = true) /\
  (vx = 0%R -> flipX p' = flipX p /\ weapon p' = weapon p).
Proof.
  unfold update_flipX, getBody; cbv zeta.
  destruct (Rgt_dec (vecX (velocity (body p))) 0) as [Hgt | Hngt];
    [| destruct (Rlt_dec (vecX (velocity (body p))) 0) as [Hlt | Hnlt]];
    cbn; repeat split; intros; try reflexivity; lra.
Qed.

Lemma update_facing (delta : R) (keys : Keys) (p : PlayerT) :
  let p' := update delta keys p in
  let vx := vecX (velocity (body p')) in
  ((vx > 0)%R -> flipX p' = false) /\
  ((vx < 0)%R -> flipX p' = true) /\
  (vx = 0%R -> flipX p' = flipX p).
Proof.
  intros p' vx.
  destruct (update_fields delta keys p)
    as (_ & _ & Hv & Hf & _ & _ & _ & _ & _).
  destruct (update_velocity_frame keys p) as (_ & Hf1 & _).
  destruct (update_flipX_cases (update_velocity keys p)) as (Hpos & Hneg & Hz).
  cbv zeta in Hv, Hf, Hf1, Hpos, Hneg, Hz.
  subst vx p'; rewrite Hv, Hf.
  repeat split; intro H.
  - apply Hpos; exact H.
  - apply Hneg; exact H.
  - rewrite <- Hf1; apply Hz; exact H.
Qed.

Section WeaponMirrors.

Context {laws : WeaponKeepsFlip env}.

Lemma update_keeps_mirror (delta : R) (keys : Keys) (p : PlayerT) :
  weaponFlipX (weapon p) = flipX p ->
  weaponFlipX (weapon (update delta keys p)) = flipX (update delta keys p).
Proof.
  intro Hm.
  destruct (update_fields delta keys p)
    as (_ & _ & _ & Hf & _ & _ & Hw & Hw3 & _).
  destruct (update_velocity_frame keys p) as (_ & Hf1 & Hw1 & _).
  cbv zeta in Hf, Hw, Hw3, Hf1, Hw1.
  rewrite Hw, Weapon_update_flipX, Hw3, Hf.
  unfold update_flipX; repeat break_if; cbn; try reflexivity.
  rewrite Hw1, Hf1; exact Hm.
Qed.

(** The weapon is flipped exactly when the player is, whatever the calls
    were. *)
Lemma reachable_weapon_mirrors (p : PlayerT) :
  reachable p -> weaponFlipX (weapon p) = flipX p.
Proof.
  induction 1 as [x y config | c p Hp IH].
  - cbn; apply Weapon_new_flipX.
  - destruct c; cbn [perform fst].
    + exact IH.
    + apply update_keeps_mirror; exact IH.
    + exact IH.
    + unfold handleItemSlotChange; destruct (currentWeaponAsset d);
        repeat break_if; cbn; try exact IH.
      rewrite Weapon_setModel_flipX; exact IH.
    + exact IH.
Qed.

(** C7.  After an [update] on an object the game can hold, with [vx] the
    horizontal velocity the call resolved: the player faces right when
    [vx > 0], left when [vx < 0], and as before the call when [vx = 0];
    and the weapon's flip is the player's flip. *)
Theorem update_facing_follows_velocity
        (delta : R) (keys : Keys) (p : PlayerT) :
  reachable p ->
  let p' := update delta keys p in
  let vx := vecX (velocity (body p')) in
  ((vx > 0)%R -> facing p' = FacingRight) /\
  ((vx < 0)%R -> facing p' = FacingLeft) /\
  (vx = 0%R -> facing p' = facing p) /\
  weaponFlipX (weapon p') = flipX p' /\
  weaponFacing p' = facing p'.
Proof.
  intros Hreach p' vx.
  destruct (update_facing delta keys p) as (Hpos & Hneg & Hz).
  fold p' in Hpos, Hneg, Hz; fold vx in Hpos, Hneg, Hz.
  assert (Hm : weaponFlipX (weapon p') = flipX p').
  { apply update_keeps_mirror, reachable_weapon_mirrors, Hreach. }
  unfold facing, weaponFacing.
  repeat split.
  - intro H; rewrite (Hpos H); reflexivity.
  - intro H; rewrite (Hneg H); reflexivity.
  - intro H; rewrite (Hz H); reflexivity.
  - exact Hm.
  - rewrite Hm; reflexivity.
Qed.

End WeaponMirrors.

(** *** Animation and solidity *)

Lemma update_animKeys (delta : R) (keys : Keys) (p : PlayerT) :
  getIdleAnimationKey (update delta keys p) = getIdleAnimationKey p /\
  getRunAnimationKey (update delta keys p) = getRunAnimationKey p.
Proof.
  unfold getIdleAnimationKey, getRunAnimationKey, update; cbn.
  destruct (update_frame_frame (update_flipX (update_velocity keys p)))
    as (_ & _ & _ & _ & _ & _ & Ha3 & _).
  destruct (update_flipX_frame (update_velocity keys p))
    as (_ & _ & _ & _ & Ha2 & _).
  destruct (update_velocity_frame keys p) as (_ & _ & _ & _ & Ha1 & _).
  cbv zeta in Ha1, Ha2, Ha3.
  rewrite Ha3, Ha2, Ha1; split; reflexivity.
Qed.

Lemma update_frame_cases (p : PlayerT) :
  let p' := update_frame p in
  (velocity (body p) = mkVector2 0 0 ->
   animKey p' = Some (getIdleAnimationKey p) /\ immovable (body p') = true) /\
  (velocity (body p) <> mkVector2 0 0 ->
   animKey p' = Some (getRunAnimationKey p) /\ immovable (body p') = false).
Proof.
  unfold update_frame, getBody; cbv zeta.
  destruct (velocity (body p)) as [vx vy] eqn:Ev; cbn [vecX vecY].
  destruct (Req_dec_T vx 0) as [Hx | Hx];
    [destruct (Req_dec_T vy 0) as [Hy | Hy] |]; cbn; split; intro H;
    try (split; reflexivity).
  - subst; congruence.
  - injection H as _ H; contradiction.
  - injection H as H _; contradiction.
Qed.

(** What the last block of [update] plays and sets, in terms of the
    velocity the frame ends with. *)
Lemma update_idle_or_run (delta : R) (keys : Keys) (p : PlayerT) :
  let p' := update delta keys p in
  let v := velocity (body p') in
  (v = mkVector2 0 0 ->
   animKey p' = Some (getIdleAnimationKey p') /\ immovable (body p') = true) /\
  (v <> mkVector2 0 0 ->
   animKey p' = Some (getRunAnimationKey p') /\ immovable (body p') = false) /\
  (immovable (body p') = true <-> v = mkVector2 0 0).
Proof.
  intros p' v.
  destruct (update_fields delta keys p)
    as (_ & _ & Hv & _ & Hb & Ha & _).
  destruct (update_animKeys delta keys p) as (Hik & Hrk).
  set (p2 := update_flipX (update_velocity keys p)) in *.
  destruct (update_frame_cases p2) as (Hidle & Hrun).
  destruct (update_flipX_frame (update_velocity keys p)) as (_ & Hb2 & _).
  destruct (update_velocity_frame keys p) as (_ & _ & _ & _ & Ha1 & _).
  destruct (update_flipX_frame (update_velocity keys p))
    as (_ & _ & _ & _ & Ha2 & _).
  cbv zeta in Hv, Hb, Ha, Hidle, Hrun, Hb2, Ha1, Ha2.
  fold p2 in Hb2, Ha2.
  assert (Ev : v = velocity (body p2)).
  { subst v p'; rewrite Hv, Hb2; reflexivity. }
  assert (Ki : getIdleAnimationKey p' = getIdleAnimationKey p2).
  { subst p'; rewrite Hik; unfold getIdleAnimationKey; rewrite Ha2, Ha1.
    reflexivity. }
  assert (Kr : getRunAnimationKey p' = getRunAnimationKey p2).
  { subst p'; rewrite Hrk; unfold getRunAnimationKey; rewrite Ha2, Ha1.
    reflexivity. }
  subst p'; rewrite Ha, Hb, Ki, Kr, Ev.
  split; [exact Hidle | split; [exact Hrun |]].
  split.
  - intro Him. destruct (velocity (body p2)) as [vx vy] eqn:E2.
    destruct (Req_dec_T vx 0) as [Hx | Hx];
      [destruct (Req_dec_T vy 0) as [Hy | Hy] |].
    + subst; reflexivity.
    + assert (Hne : mkVector2 vx vy <> mkVector2 0 0)
        by (intro C; injection C as _ C; contradiction).
      destruct (Hrun Hne) as (_ & Hf); congruence.
    + assert (Hne : mkVector2 vx vy <> mkVector2 0 0)
        by (intro C; injection C as C _; contradiction).
      destruct (Hrun Hne) as (_ & Hf); congruence.
  - intro Hz; apply Hidle; exact Hz.
Qed.

(** The keys the two animations are registered and played under differ
    when their prefixes do. *)
Lemma append_cancel_l (a b c : string) :
  (a ++ b)%string = (a ++ c)%string -> b = c.
Proof.
  induction a as [| ch rest IH]; cbn; intro E; [exact E |].
  injection E as E; apply IH; exact E.
Qed.

Lemma animationKeys_differ (p : PlayerT) :
  IdleAnimationPrefix data <> RunAnimationPrefix data ->
  getIdleAnimationKey p <> getRunAnimationKey p.
Proof.
  intros Hne E; unfold getIdleAnimationKey, getRunAnimationKey in E.
  apply append_cancel_l in E; cbn in E; injection E as E.
  apply Hne; exact E.
Qed.

(** C8.  With the idle and the run animation registered under different
    prefixes, after every [update]: when the velocity is (0,0) the idle
    animation plays and the body is immovable; when it is not, the run
    animation plays, which is not the idle one, and the body is movable;
    so the idle animation plays exactly when the body is immovable, the run
    animation exactly when it is movable, and both exactly on the zero
    velocity. *)
Theorem update_idle_iff_immovable (delta : R) (keys : Keys) (p : PlayerT) :
  IdleAnimationPrefix data <> RunAnimationPrefix data ->
  let p' := update delta keys p in
  let v := velocity (body p') in
  getIdleAnimationKey p' <> getRunAnimationKey p' /\
  (v = mkVector2 0 0 ->
   animKey p' = Some (getIdleAnimationKey p') /\
   animKey p' <> Some (getRunAnimationKey p') /\
   immovable (body p') = true) /\
  (v <> mkVector2 0 0 ->
   animKey p' = Some (getRunAnimationKey p') /\
   animKey p' <> Some (getIdleAnimationKey p') /\
   immovable (body p') = false) /\
  (immovable (body p') = true <-> v = mkVector2 0 0) /\
  (animKey p' = Some (getIdleAnimationKey p') <-> immovable (body p') = true) /\
  (animKey p' = Some (getRunAnimationKey p') <-> immovable (body p') = false).
Proof.
  intros Hne p' v.
  pose proof (animationKeys_differ p' Hne) as Hk.
  destruct (update_idle_or_run delta keys p) as (Hidle & Hrun & Hiff).
  fold p' in Hidle, Hrun, Hiff; fold v in Hidle, Hrun, Hiff.
  assert (Hdec : v = mkVector2 0 0 \/ v <> mkVector2 0 0).
  { destruct (immovable (body p')) eqn:Ei.
    - left; apply Hiff; reflexivity.
    - right; intro Hz; apply Hiff in Hz; congruence. }
  split; [exact Hk |].
  split; [| split; [| split; [exact Hiff | split]]].
  - intro Hz; destruct (Hidle Hz) as (Ha & Hi).
    split; [exact Ha | split; [| exact Hi]].
    rewrite Ha; intro C; injection C as C; apply Hk; exact C.
  - intro Hnz; destruct (Hrun Hnz) as (Ha & Hi).
    split; [exact Ha | split; [| exact Hi]].
    rewrite Ha; intro C; injection C as C; apply Hk; symmetry; exact C.
  - split.
    + intro Ha; destruct Hdec as [Hz | Hnz].
      * apply Hidle; exact Hz.
      * destruct (Hrun Hnz) as (Hr & _). rewrite Hr in Ha.
        injection Ha as Ha; exfalso; apply Hk; symmetry; exact Ha.
    + intro Hi; apply Hidle, Hiff; exact Hi.
  - split.
    + intro Ha; destruct Hdec as [Hz | Hnz].
      * destruct (Hidle Hz) as (Hr & _). rewrite Hr in Ha.
        injection Ha as Ha; exfalso; apply Hk; exact Ha.
      * apply Hrun; exact Hnz.
    + intro Hi; destruct Hdec as [Hz | Hnz].
      * apply Hiff in Hz; congruence.
      * apply Hrun; exact Hnz.
Qed.

(** *** The behaviour state *)

Lemma perform_currentState (c : Call) (p : PlayerT) (s : PlayerState) :
  currentState (fst (perform c p)) = s -> currentState p <> s ->
  s = Default \/ c = CallSetCurrentState s.
Proof.
  destruct c as [scene d | delta keys | enabled | d | state];
    cbn [perform fst]; intros Hafter Hbefore.
  - exfalso; apply Hbefore; exact Hafter.
  - rewrite update_currentState_of_block in Hafter.
    destruct (currentState p) eqn:Hs.
    + destruct (update_velocity_Default keys p Hs) as (_ & H).
      left; congruence.
    + destruct (update_velocity_Talking keys p Hs) as (_ & H).
      exfalso; apply Hbefore; congruence.
    + destruct (update_velocity_FinishTalking keys p Hs) as (_ & Hle & Hgt).
      destruct (Rgt_dec (elapsedTime p) 200) as [Hnow | Hnot].
      * left; rewrite <- Hafter; apply Hgt; exact Hnow.
      * exfalso; apply Hbefore; rewrite <- Hafter; symmetry; apply Hle; lra.
  - exfalso; apply Hbefore; exact Hafter.
  - exfalso; apply Hbefore; rewrite <- Hafter.
    unfold handleItemSlotChange; destruct (currentWeaponAsset d);
      repeat break_if; reflexivity.
  - right; f_equal; exact Hafter.
Qed.

(** C9.  [setCurrentState state] leaves the elapsed time at 0 and the state
    at [state], also when the object was in [state] already; a fresh object
    is in [Default]; and a call that takes the object into [Talking] or
    [FinishTalking] from another state is [setCurrentState] with that
    state. *)
Theorem setCurrentState_resets_and_is_only_entry
        (state : PlayerState) (p : PlayerT) :
  (elapsedTime (setCurrentState state p) = 0%R /\
   currentState (setCurrentState state p) = state) /\
  (forall x y config, currentState (newPlayer x y config) = Default) /\
  (forall c s,
     s = Talking \/ s = FinishTalking ->
     currentState p <> s ->
     currentState (fst (perform c p)) = s ->
     c = CallSetCurrentState s).
Proof.
  split; [split; reflexivity | split; [reflexivity |]].
  intros c s Hs Hbefore Hafter.
  destruct (perform_currentState c p s Hafter Hbefore) as [Hd | Hc].
  - destruct Hs; congruence.
  - exact Hc.
Qed.

End PlayerProperties.

(** ** Further properties of the class *)

Section PlayerExtras.

Context {WeaponInternal : Type} {env : Collaborators WeaponInternal}.

Local Abbreviation PlayerX := (Player WeaponInternal).

Ltac split_if :=
  match goal with
  | |- context [if ?c then _ else _] => destruct c
  end.

(** *** The log of [receiveDamage] *)

Lemma hpChangePayloads_app (l1 l2 : list Effect) :
  hpChangePayloads (l1 ++ l2) = hpChangePayloads l1 ++ hpChangePayloads l2.
Proof.
  induction l1 as [| e rest IH]; [reflexivity |].
  destruct e as [a | [sc | d x y c | h]]; cbn; rewrite ?IH; reflexivity.
Qed.

Lemma damagePayloads_app (l1 l2 : list Effect) :
  damagePayloads (l1 ++ l2) = damagePayloads l1 ++ damagePayloads l2.
Proof.
  induction l1 as [| e rest IH]; [reflexivity |].
  destruct e as [a | [sc | d x y c | h]]; cbn; rewrite ?IH; reflexivity.
Qed.

Lemma soundsPlayed_app (l1 l2 : list Effect) :
  soundsPlayed (l1 ++ l2) = soundsPlayed l1 ++ soundsPlayed l2.
Proof.
  induction l1 as [| e rest IH]; [reflexivity |].
  destruct e as [a | [sc | d x y c | h]]; cbn; rewrite ?IH; reflexivity.
Qed.

Lemma last_cons_default (l : list Z) (a d : Z) :
  last (a :: l) d = last l a.
Proof.
  revert a d; induction l as [| b rest IH]; intros a d; [reflexivity |].
  change (last (a :: b :: rest) d) with (last (b :: rest) d).
  rewrite (IH b d), (IH b a); reflexivity.
Qed.

Lemma receiveDamage_payloads (scene : Scene) (d : Z) (p : PlayerX) :
  let log := snd (receiveDamage scene d p) in
  hpChangePayloads log = [hitPoints (fst (receiveDamage scene d p))] /\
  damagePayloads log = [d] /\
  soundsPlayed log = [DamagePlayer].
Proof.
  destruct (receiveDamage_log scene d p) as (x & y & E); cbv zeta in E.
  cbv zeta; rewrite E.
  destruct (hitPoints (fst (receiveDamage scene d p)) =? 0);
    repeat split; reflexivity.
Qed.

(** X1.  Along any sequence of [receiveDamage] calls the log tells the
    whole story: the [PlayerHpChange] events carry the hit points after
    each call, the last one the hit points the object ends with; the
    [Damage] events carry the amounts as they were passed, also when an
    amount is more than the hit points that were left; and the damage sound
    plays once per call. *)
Theorem receiveDamages_log_tracks_calls
        (scene : Scene) (damages : list Z) (p : PlayerX) :
  let r := receiveDamages scene damages p in
  let log := snd (fst r) in
  hpChangePayloads log = snd r /\
  damagePayloads log = damages /\
  soundsPlayed log = repeat DamagePlayer (List.length damages) /\
  hitPoints (fst (fst r)) = last (snd r) (hitPoints p).
Proof.
  revert p; induction damages as [| d rest IH]; intro p.
  - repeat split.
  - rewrite receiveDamages_cons; cbv zeta; cbn [fst snd].
    destruct (receiveDamage_payloads scene d p) as (Hh & Hd & Hs).
    cbv zeta in Hh, Hd, Hs.
    destruct (IH (fst (receiveDamage scene d p))) as (I1 & I2 & I3 & I4).
    cbv zeta in I1, I2, I3, I4.
    rewrite hpChangePayloads_app, damagePayloads_app, soundsPlayed_app.
    rewrite Hh, Hd, Hs, I1, I2, I3, I4, last_cons_default.
    repeat split.
Qed.

(** *** Hit points across all calls *)

Lemma performAll_cons (c : Call) (rest : list Call) (p : PlayerX) :
  performAll (c :: rest) p =
  (fst (performAll rest (fst (perform c p))),
   snd (perform c p) ++ snd (performAll rest (fst (perform c p)))).
Proof.
  cbn [performAll].
  destruct (perform c p) as [p1 log1]; cbn [fst snd].
  destruct (performAll rest p1) as [p2 log2]; reflexivity.
Qed.

Lemma performAll_hitPoints_descend (calls : list Call) (p : PlayerX) :
  0 <= hitPoints p -> forallb damageNonNegative calls = true ->
  0 <= hitPoints (fst (performAll calls p)) <= hitPoints p.
Proof.
  revert p; induction calls as [| c rest IH]; intros p Hp Hall.
  - cbn; lia.
  - cbn [forallb] in Hall; apply andb_prop in Hall as (Hc & Hrest).
    rewrite performAll_cons; cbn [fst].
    pose proof (perform_hitPoints c p) as E.
    assert (H1 : 0 <= hitPoints (fst (perform c p)) <= hitPoints p).
    { rewrite E; destruct c; cbn in Hc; lia. }
    specialize (IH (fst (perform c p)) (proj1 H1) Hrest); lia.
Qed.

(** X3.  No call gives hit points back: through any calls in which no
    [receiveDamage] gets a negative amount, the hit points stay between 0
    and what they were; so a player at 0 stays at 0, and a fresh player
    never has more than [MAX_HIT_POINTS]. *)
Theorem hitPoints_never_rise (calls : list Call) (p : PlayerX) :
  0 <= hitPoints p -> forallb damageNonNegative calls = true ->
  let h' := hitPoints (fst (performAll calls p)) in
  0 <= h' <= hitPoints p /\
  (hitPoints p = 0 -> h' = 0) /\
  (forall x y config,
     0 <= hitPoints (fst (performAll calls (newPlayer x y config)))
       <= MAX_HIT_POINTS).
Proof.
  intros Hp Hall h'.
  pose proof (performAll_hitPoints_descend calls p Hp Hall) as H.
  fold h' in H.
  split; [exact H | split; [lia |]].
  intros x y config.
  apply (performAll_hitPoints_descend calls (newPlayer x y config));
    [cbn; unfold MAX_HIT_POINTS; lia | exact Hall].
Qed.

(** X4.  Damage touches the hit points and the displayed frame and nothing
    else: a sequence of [receiveDamage] calls leaves the behaviour state,
    the elapsed time, the body with its velocity, the facing, the weapon,
    the attack gate and the playing animation as they were, and ends on the
    hit frame of the player's asset. *)
Theorem receiveDamages_leave_the_rest_alone
        (scene : Scene) (damages : list Z) (p : PlayerX) :
  let p' := fst (fst (receiveDamages scene damages p)) in
  currentState p' = currentState p /\ elapsedTime p' = elapsedTime p /\
  body p' = body p /\ flipX p' = flipX p /\ weapon p' = weapon p /\
  attackEnabled p' = attackEnabled p /\ animKey p' = animKey p /\
  asset p' = asset p /\
  (damages <> [] ->
   frame p' = Some (asset p ++ HitFrameKey data)%string).
Proof.
  revert p; induction damages as [| d rest IH]; intro p.
  - cbn; repeat split; intro H; contradiction H; reflexivity.
  - rewrite receiveDamages_cons; cbv zeta; cbn [fst].
    destruct (IH (fst (receiveDamage scene d p)))
      as (I1 & I2 & I3 & I4 & I5 & I6 & I7 & I8 & I9).
    cbv zeta in I1, I2, I3, I4, I5, I6, I7, I8, I9.
    rewrite I1, I2, I3, I4, I5, I6, I7, I8.
    repeat split. intros _.
    destruct rest as [| d2 rest2].
    + reflexivity.
    + rewrite I9 by discriminate. reflexivity.
Qed.

(** *** The weapon slot *)

(** X5.  After [handleItemSlotChange] the weapon is visible exactly when
    its body is enabled, and that is exactly when the event names a weapon
    asset (an empty name counts as none); the player's own fields are
    untouched, and with no asset named the weapon keeps its flip and its
    model. *)
Theorem itemSlotChange_shows_weapon_iff_asset
        (d : ItemSlotChange) (p : PlayerX) :
  let p' := handleItemSlotChange d p in
  weaponVisible (weapon p') = truthy (currentWeaponAsset d) /\
  weaponBodyEnable (weapon p') = truthy (currentWeaponAsset d) /\
  hitPoints p' = hitPoints p /\ currentState p' = currentState p /\
  elapsedTime p' = elapsedTime p /\ body p' = body p /\
  flipX p' = flipX p /\ attackEnabled p' = attackEnabled p /\
  (truthy (currentWeaponAsset d) = false ->
   weaponFlipX (weapon p') = weaponFlipX (weapon p) /\
   weaponInternal (weapon p') = weaponInternal (weapon p)).
Proof.
  unfold handleItemSlotChange; cbv zeta.
  destruct (currentWeaponAsset d) as [a |] eqn:Ea.
  - destruct (truthy (Some a)) eqn:Et; cbn; repeat split;
      intros; try reflexivity; discriminate.
  - cbn; repeat split.
Qed.

(** *** Frames *)

Lemma updates_cons (delta : R) (keys : Keys) (rest : list (R * Keys))
      (p : PlayerX) :
  updates ((delta, keys) :: rest) p = updates rest (update delta keys p).
Proof. reflexivity. Qed.

(** What the last block of [update] makes of the velocity the first block
    resolved, with the animation keys of the object before the call. *)
Lemma update_rest_or_run (delta : R) (keys : Keys) (p : PlayerX) :
  let p' := update delta keys p in
  (velocity (body p') = mkVector2 0 0 ->
   animKey p' = Some (getIdleAnimationKey p) /\ immovable (body p') = true) /\
  (velocity (body p') <> mkVector2 0 0 ->
   animKey p' = Some (getRunAnimationKey p) /\ immovable (body p') = false).
Proof.
  intro p'.
  destruct (update_fields delta keys p) as (_ & _ & Hv & _ & Hb & Ha & _).
  set (p1 := update_velocity keys p) in *.
  set (p2 := update_flipX p1) in *.
  destruct (update_frame_cases p2) as (Hidle & Hrun).
  destruct (update_flipX_frame p1) as (_ & Hb2 & _ & _ & Ha2 & _).
  destruct (update_velocity_frame keys p) as (_ & _ & _ & _ & Ha1 & _).
  cbv zeta in Hv, Hb, Ha, Hidle, Hrun, Hb2, Ha2, Ha1.
  fold p1 in Ha1; fold p2 in Hb2, Ha2.
  assert (Ev : velocity (body p') = velocity (body p2)).
  { subst p'; rewrite Hv, Hb2; reflexivity. }
  assert (Ki : getIdleAnimationKey p2 = getIdleAnimationKey p).
  { unfold getIdleAnimationKey; rewrite Ha2, Ha1; reflexivity. }
  assert (Kr : getRunAnimationKey p2 = getRunAnimationKey p).
  { unfold getRunAnimationKey; rewrite Ha2, Ha1; reflexivity. }
  rewrite Ev; subst p'; rewrite Ha, Hb, <- Ki, <- Kr.
  split; assumption.
Qed.

Lemma update_asset (delta : R) (keys : Keys) (p : PlayerX) :
  asset (update delta keys p) = asset p.
Proof.
  destruct (update_frame_frame (update_flipX (update_velocity keys p)))
    as (_ & _ & _ & _ & _ & _ & A3 & _).
  destruct (update_flipX_frame (update_velocity keys p))
    as (_ & _ & _ & _ & A2 & _).
  destruct (update_velocity_frame keys p) as (_ & _ & _ & _ & A1 & _).
  cbv zeta in A1, A2, A3.
  unfold update; cbn; rewrite A3, A2, A1; reflexivity.
Qed.

Lemma update_flipX_at_rest (delta : R) (keys : Keys) (p : PlayerX) :
  velocity (body (update delta keys p)) = mkVector2 0 0 ->
  flipX (update delta keys p) = flipX p.
Proof.
  intro Hv; apply (update_facing delta keys p); rewrite Hv; reflexivity.
Qed.

(** *** Talking *)

Lemma update_Talking_holds (delta : R) (keys : Keys) (p0 p : PlayerX) :
  currentState p = Talking -> flipX p = flipX p0 -> asset p = asset p0 ->
  currentState (update delta keys p) = Talking /\
  heldStill p0 (update delta keys p).
Proof.
  intros Hs Hf Ha.
  destruct (update_velocity_Talking keys p Hs) as (Hv & Hs').
  assert (V : velocity (body (update delta keys p)) = mkVector2 0 0)
    by (rewrite update_velocity_of_block; exact Hv).
  destruct (update_rest_or_run delta keys p) as (Hidle & _).
  destruct (Hidle V) as (Hk & Hi).
  destruct (update_animKeys delta keys p) as (Hik & _).
  split; [rewrite update_currentState_of_block; exact Hs' |].
  unfold heldStill; repeat split.
  - exact V.
  - exact Hi.
  - rewrite Hk; unfold getIdleAnimationKey; rewrite Ha; reflexivity.
  - rewrite update_flipX_at_rest by exact V; exact Hf.
  - rewrite update_asset; exact Ha.
Qed.

Lemma updates_Talking_hold (ticks : list (R * Keys)) (p0 p : PlayerX) :
  currentState p = Talking -> flipX p = flipX p0 -> asset p = asset p0 ->
  ticks <> [] ->
  currentState (updates ticks p) = Talking /\ heldStill p0 (updates ticks p).
Proof.
  revert p; induction ticks as [| [delta keys] rest IH];
    intros p Hs Hf Ha Hne; [contradiction Hne; reflexivity |].
  rewrite updates_cons.
  destruct (update_Talking_holds delta keys p0 p Hs Hf Ha)
    as (Hs1 & Hv1 & Hi1 & Hk1 & Hf1 & Ha1).
  destruct rest as [| tick rest'].
  - cbn [updates]; split; [exact Hs1 |].
    unfold heldStill; repeat split; assumption.
  - apply IH; [exact Hs1 | exact Hf1 | exact Ha1 | discriminate].
Qed.

(** X7.  A talk holds the player still: from the [Talking] state, after any
    one or more frames, whatever keys are held in them, the state is still
    [Talking], the velocity is (0,0), the body is immovable, the idle
    animation plays and the player faces the way it did. *)
Theorem talking_holds_the_player_still
        (ticks : list (R * Keys)) (p : PlayerX) :
  currentState p = Talking -> ticks <> [] ->
  let p' := updates ticks p in
  currentState p' = Talking /\
  velocity (body p') = mkVector2 0 0 /\ immovable (body p') = true /\
  animKey p' = Some (getIdleAnimationKey p) /\ flipX p' = flipX p.
Proof.
  intros Hs Hne p'.
  destruct (updates_Talking_hold ticks p p Hs eq_refl eq_refl Hne)
    as (Hs' & Hv & Hi & Hk & Hf & _).
  repeat split; assumption.
Qed.


(** *** The ladder, key by key *)

Lemma ladderVelocity_signs (keys : Keys) :
  let v := ladderVelocity keys in
  ((vecX v < 0)%R <-> movesLeft keys = true) /\
  ((vecX v > 0)%R <-> movesRight keys = true) /\
  ((vecY v < 0)%R <-> movesUp keys = true) /\
  ((vecY v > 0)%R <-> movesDown keys = true).
Proof.
  pose proof diagonalSpeed_pos as Hd.
  unfold ladderVelocity, movesLeft, movesRight, movesUp, movesDown.
  destruct (keyW keys), (keyA keys), (keyS keys), (keyD keys);
    cbn [andb orb negb vecX vecY]; unfold MOVE_SPEED;
    repeat split; intro H; try reflexivity; try discriminate; lra.
Qed.

Lemma ladderVelocity_zero (keys : Keys) :
  ladderVelocity keys = mkVector2 0 0 <-> anyDirectionKey keys = false.
Proof.
  pose proof diagonalSpeed_pos as Hd.
  unfold ladderVelocity, anyDirectionKey.
  destruct (keyW keys), (keyA keys), (keyS keys), (keyD keys);
    cbn [andb orb]; unfold MOVE_SPEED; split; intro H;
    try reflexivity; try discriminate;
    injection H; intros; lra.
Qed.

(** X10.  In the [Default] state the keys decide the direction on each axis
    by the order of the rungs, not by cancelling: the player moves left
    exactly when the left key is down, right exactly when the right key is
    down and the left key is not; up exactly when the up key is down,
    unless down and right are down and left is not; down exactly when the
    down key is down and up does not win. *)
Theorem update_Default_directions (delta : R) (keys : Keys) (p : PlayerX) :
  currentState p = Default ->
  let v := velocity (body (update delta keys p)) in
  ((vecX v < 0)%R <-> movesLeft keys = true) /\
  ((vecX v > 0)%R <-> movesRight keys = true) /\
  ((vecY v < 0)%R <-> movesUp keys = true) /\
  ((vecY v > 0)%R <-> movesDown keys = true).
Proof.
  intros Hs v; subst v; rewrite update_Default_velocity by exact Hs.
  apply ladderVelocity_signs.
Qed.

(** X11.  In the [Default] state the left and right keys alone decide the
    facing: left key down, the player ends the frame flipped (facing
    left); left key up and right key down, not flipped; neither, as it
    was.  The up and down keys never turn the player. *)
Theorem update_Default_facing_by_keys
        (delta : R) (keys : Keys) (p : PlayerX) :
  currentState p = Default ->
  flipX (update delta keys p) =
  if keyA keys then true else if keyD keys then false else flipX p.
Proof.
  intro Hs.
  destruct (update_facing delta keys p) as (Hpos & Hneg & Hz).
  cbv zeta in Hpos, Hneg, Hz.
  rewrite update_Default_velocity in Hpos, Hneg, Hz by exact Hs.
  destruct (ladderVelocity_signs keys) as (Hl & Hr & _).
  cbv zeta in Hl, Hr; unfold movesLeft, movesRight in Hl, Hr.
  destruct (keyA keys) eqn:Ea.
  - apply Hneg, Hl; reflexivity.
  - destruct (keyD keys) eqn:Ed.
    + apply Hpos, Hr; reflexivity.
    + apply Hz.
      destruct (Rtotal_order (vecX (ladderVelocity keys)) 0)
        as [Hlt | [Heq | Hgt]]; [| exact Heq |].
      * apply Hl in Hlt; discriminate.
      * apply Hr in Hgt; cbn in Hgt; discriminate.
Qed.

(** X12.  In the [Default] state, with the idle and the run animation
    registered under different prefixes, the player is solid exactly on
    the frames where no direction key is down: then the body is immovable
    and the idle animation plays; with any direction key down, opposing
    ones included, the body is movable and the run animation plays, which
    is not the idle one. *)
Theorem update_Default_solid_iff_no_key
        (delta : R) (keys : Keys) (p : PlayerX) :
  IdleAnimationPrefix data <> RunAnimationPrefix data ->
  currentState p = Default ->
  let p' := update delta keys p in
  immovable (body p') = negb (anyDirectionKey keys) /\
  animKey p' = Some (if anyDirectionKey keys then getRunAnimationKey p
                     else getIdleAnimationKey p) /\
  getIdleAnimationKey p <> getRunAnimationKey p /\
  (animKey p' = Some (getIdleAnimationKey p) <->
   anyDirectionKey keys = false) /\
  (animKey p' = Some (getRunAnimationKey p) <->
   anyDirectionKey keys = true).
Proof.
  intros Hpre Hs p'.
  pose proof (animationKeys_differ p Hpre) as Hk.
  destruct (update_rest_or_run delta keys p) as (Hidle & Hrun).
  cbv zeta in Hidle, Hrun; fold p' in Hidle, Hrun.
  assert (V : velocity (body p') = ladderVelocity keys)
    by (apply update_Default_velocity; exact Hs).
  rewrite V in Hidle, Hrun.
  destruct (anyDirectionKey keys) eqn:Ek; cbn [negb].
  - assert (Hne : ladderVelocity keys <> mkVector2 0 0).
    { intro C; apply ladderVelocity_zero in C; congruence. }
    destruct (Hrun Hne) as (Ha & Hi).
    split; [exact Hi | split; [exact Ha | split; [exact Hk | split]]].
    + rewrite Ha; split; intro C; [| discriminate].
      injection C as C; exfalso; apply Hk; symmetry; exact C.
    + split; intro C; [reflexivity | exact Ha].
  - assert (Hz : ladderVelocity keys = mkVector2 0 0)
      by (apply ladderVelocity_zero; exact Ek).
    destruct (Hidle Hz) as (Ha & Hi).
    split; [exact Hi | split; [exact Ha | split; [exact Hk | split]]].
    + split; intro C; [reflexivity | exact Ha].
    + rewrite Ha; split; intro C; [| discriminate].
      injection C as C; exfalso; apply Hk; exact C.
Qed.

(** *** The weapon's turn *)


End PlayerExtras.

(** ** The earlier class *)

Section LegacyFacts.

Context {WeaponInternal : Type} {Frame : Type}
        {env : Legacy.Collaborators WeaponInternal Frame}.

Local Abbreviation LegacyPlayer := (Legacy.Player WeaponInternal Frame).

Lemma legacy_receiveDamages_cons (d : Z) (rest : list Z) (p : LegacyPlayer) :
  Legacy.receiveDamages (d :: rest) p =
  (fst (Legacy.receiveDamages rest (fst (Legacy.receiveDamage d p))),
   snd (Legacy.receiveDamage d p)
   ++ snd (Legacy.receiveDamages rest (fst (Legacy.receiveDamage d p)))).
Proof.
  cbn [Legacy.receiveDamages].
  destruct (Legacy.receiveDamage d p) as [p1 log1]; cbn [fst snd].
  destruct (Legacy.receiveDamages rest p1) as [p2 log2]; reflexivity.
Qed.

Lemma legacy_hpChangePayloads_app (l1 l2 : list Legacy.Effect) :
  Legacy.hpChangePayloads (l1 ++ l2) =
  Legacy.hpChangePayloads l1 ++ Legacy.hpChangePayloads l2.
Proof.
  induction l1 as [| e rest IH]; [reflexivity |].
  destruct e as [k | k | a | [d x y c | h m]]; cbn; rewrite ?IH; reflexivity.
Qed.

Lemma legacy_scenesStarted_app (l1 l2 : list Legacy.Effect) :
  Legacy.scenesStarted (l1 ++ l2) =
  Legacy.scenesStarted l1 ++ Legacy.scenesStarted l2.
Proof.
  induction l1 as [| e rest IH]; [reflexivity |].
  destruct e as [k | k | a | [d x y c | h m]]; cbn; rewrite ?IH; reflexivity.
Qed.

Lemma legacy_receiveDamage_fields (d : Z) (p : LegacyPlayer) :
  let p' := fst (Legacy.receiveDamage d p) in
  let log := snd (Legacy.receiveDamage d p) in
  Legacy.hitPoints p' = Z.max 0 (Legacy.hitPoints p - d) /\
  Legacy.maxHitPoints p' = Legacy.maxHitPoints p /\
  Legacy.hpChangePayloads log =
    [(Z.max 0 (Legacy.hitPoints p - d), Legacy.maxHitPoints p)] /\
  Legacy.scenesStarted log =
    (if Z.max 0 (Legacy.hitPoints p - d) =? 0
     then ["GameOverScene"%string] else []).
Proof.
  cbn; destruct (Z.max 0 (Legacy.hitPoints p - d) =? 0);
    repeat split; reflexivity.
Qed.

(** X14.  In the earlier class, along [receiveDamage] calls with
    non-negative amounts the hit points stay between 0 and the maximum,
    never go up, and the maximum never changes; every [PlayerHpChange]
    event carries hit points within the maximum it carries, which is the
    object's. *)
Theorem legacy_hitPoints_within_maximum
        (damages : list Z) (p : LegacyPlayer) :
  0 <= Legacy.hitPoints p <= Legacy.maxHitPoints p ->
  Forall (fun d => 0 <= d) damages ->
  let r := Legacy.receiveDamages damages p in
  0 <= Legacy.hitPoints (fst r) <= Legacy.hitPoints p /\
  Legacy.maxHitPoints (fst r) = Legacy.maxHitPoints p /\
  Forall (fun hm => 0 <= fst hm <= snd hm /\ snd hm = Legacy.maxHitPoints p)
         (Legacy.hpChangePayloads (snd r)).
Proof.
  revert p; induction damages as [| d rest IH]; intros p Hp Hds.
  - cbn; repeat split; try lia; constructor.
  - inversion Hds as [| d0 ds0 Hd Hrest]; subst.
    rewrite legacy_receiveDamages_cons; cbv zeta; cbn [fst snd].
    destruct (legacy_receiveDamage_fields d p) as (Hh & Hm & Hpay & _).
    cbv zeta in Hh, Hm, Hpay.
    destruct (IH (fst (Legacy.receiveDamage d p))) as (I1 & I2 & I3).
    { rewrite Hh, Hm; lia. }
    { exact Hrest. }
    cbv zeta in I1, I2, I3.
    rewrite Hh in I1; rewrite Hm in I2, I3.
    split; [lia | split; [exact I2 |]].
    rewrite legacy_hpChangePayloads_app, Hpay; cbn [app].
    constructor; [cbn [fst snd]; lia | exact I3].
Qed.

(** X15.  The earlier class starts the game-over scene itself, once for
    every [receiveDamage] call that ends with the hit points at 0, also
    when they were at 0 before the call, and on no other call; in such a
    call the stop of the UI scene and the start of the game-over scene
    come before the sound and the events. *)
Theorem legacy_game_over_on_every_call_ending_at_zero
        (damages : list Z) (d : Z) (p : LegacyPlayer) :
  Legacy.scenesStarted (snd (Legacy.receiveDamages damages p)) =
    repeat "GameOverScene"%string
           (zeroes (Legacy.hitPointsAfter damages (Legacy.hitPoints p))) /\
  (Legacy.hitPoints (fst (Legacy.receiveDamage d p)) = 0 ->
   exists rest,
     snd (Legacy.receiveDamage d p) =
     Legacy.SceneStop "UIScene" :: Legacy.SceneStart "GameOverScene"
       :: Legacy.PlaySound DamagePlayer :: rest) /\
  (Legacy.hitPoints (fst (Legacy.receiveDamage d p)) <> 0 ->
   Legacy.scenesStarted (snd (Legacy.receiveDamage d p)) = []).
Proof.
  split; [| split].
  - clear d; revert p; induction damages as [| d rest IH]; intro p.
    + reflexivity.
    + rewrite legacy_receiveDamages_cons; cbn [snd].
      destruct (legacy_receiveDamage_fields d p) as (Hh & _ & _ & Hsc).
      cbv zeta in Hh, Hsc.
      rewrite legacy_scenesStarted_app, Hsc, IH, Hh.
      cbn [Legacy.hitPointsAfter]; unfold zeroes; cbn [filter].
      destruct (Z.max 0 (Legacy.hitPoints p - d) =? 0); reflexivity.
  - intro H0; cbn in H0 |- *.
    apply Z.eqb_eq in H0; rewrite H0; cbn [app].
    eexists; reflexivity.
  - intro Hn.
    destruct (legacy_receiveDamage_fields d p) as (Hh & _ & _ & Hsc).
    cbv zeta in Hh, Hsc; rewrite Hsc.
    rewrite Hh in Hn; apply Z.eqb_neq in Hn; rewrite Hn; reflexivity.
Qed.

(** *** The ladder of the earlier class *)

Lemma legacy_update_velocity_ladder (keys : Keys) (p : LegacyPlayer) :
  velocity (Legacy.body (Legacy.update_velocity keys p)) =
  ladderVelocity keys /\
  Legacy.flipX (Legacy.update_velocity keys p) = Legacy.flipX p.
Proof.
  unfold Legacy.update_velocity, ladderVelocity.
  unfold Legacy.velocity_normalize_scale, Legacy.setVelocity.
  change Legacy.MOVE_SPEED with MOVE_SPEED.
  repeat match goal with
         | |- context [if ?c then _ else _] => destruct c
         end; cbn; split;
    try (rewrite normalize_unit_diagonal by lra; f_equal; lra);
    reflexivity.
Qed.

Lemma legacy_update_flipX_cases (p : LegacyPlayer) :
  let vx := vecX (velocity (Legacy.body p)) in
  let p' := Legacy.update_flipX p in
  Legacy.body p' = Legacy.body p /\
  ((vx > 0)%R -> Legacy.flipX p' = false) /\
  ((vx < 0)%R -> Legacy.flipX p' = true) /\
  (vx = 0%R -> Legacy.flipX p' = Legacy.flipX p).
Proof.
  unfold Legacy.update_flipX; cbv zeta.
  destruct (Rgt_dec (vecX (velocity (Legacy.body p))) 0) as [Hgt | Hngt];
    [| destruct (Rlt_dec (vecX (velocity (Legacy.body p))) 0)
        as [Hlt | Hnlt]];
    cbn; repeat split; intros; try reflexivity; lra.
Qed.

Lemma legacy_update_frame_cases (p : LegacyPlayer) :
  let p' := Legacy.update_frame p in
  Legacy.flipX p' = Legacy.flipX p /\
  velocity (Legacy.body p') = velocity (Legacy.body p) /\
  (velocity (Legacy.body p) = mkVector2 0 0 ->
   immovable (Legacy.body p') = true) /\
  (velocity (Legacy.body p) <> mkVector2 0 0 ->
   immovable (Legacy.body p') = false).
Proof.
  unfold Legacy.update_frame; cbv zeta.
  destruct (velocity (Legacy.body p)) as [vx vy] eqn:Ev; cbn [vecX vecY].
  destruct (Req_dec_T vx 0) as [Hx | Hx];
    [destruct (Req_dec_T vy 0) as [Hy | Hy] |]; cbn; rewrite ?Ev;
    repeat split; intro H; try reflexivity.
  - subst; congruence.
  - injection H as _ H; contradiction.
  - injection H as H _; contradiction.
Qed.

Lemma legacy_update_fields (keys : Keys) (p : LegacyPlayer) :
  let p2 := Legacy.update_flipX (Legacy.update_velocity keys p) in
  let p' := Legacy.update keys p in
  velocity (Legacy.body p') = ladderVelocity keys /\
  Legacy.flipX p' = Legacy.flipX p2 /\
  velocity (Legacy.body p2) = ladderVelocity keys /\
  immovable (Legacy.body p') =
  immovable (Legacy.body (Legacy.update_frame p2)).
Proof.
  intros p2 p'.
  destruct (legacy_update_velocity_ladder keys p) as (Hv & _).
  destruct (legacy_update_flipX_cases (Legacy.update_velocity keys p))
    as (Hb & _).
  destruct (legacy_update_frame_cases p2) as (Hf & Hv3 & _).
  cbv zeta in Hb, Hf, Hv3; fold p2 in Hb.
  assert (V2 : velocity (Legacy.body p2) = ladderVelocity keys)
    by (rewrite Hb; exact Hv).
  subst p'; unfold Legacy.update; fold p2; cbn.
  rewrite Hv3, Hf; repeat split; exact V2.
Qed.

(** X16.  The [Default] state of the present class moves like the earlier
    class: for the same keys, and the same facing before the frame, the
    two [update]s leave the same velocity, the same facing and the same
    solidity. *)
Theorem update_Default_agrees_with_legacy
        {W : Type} {now : Collaborators W}
        (delta : R) (keys : Keys) (p : Player W) (old : LegacyPlayer) :
  currentState p = Default -> flipX p = Legacy.flipX old ->
  let p' := update delta keys p in
  let old' := Legacy.update keys old in
  velocity (body p') = velocity (Legacy.body old') /\
  flipX p' = Legacy.flipX old' /\
  immovable (body p') = immovable (Legacy.body old').
Proof.
  intros Hs Hf p' old'.
  destruct (legacy_update_fields keys old) as (Lv & Lf & Lv2 & Li).
  cbv zeta in Lv, Lf, Lv2, Li; fold old' in Lv, Lf, Li.
  assert (V : velocity (body p') = ladderVelocity keys)
    by (apply update_Default_velocity; exact Hs).
  destruct (update_facing delta keys p) as (Hpos & Hneg & Hz).
  cbv zeta in Hpos, Hneg, Hz; fold p' in Hpos, Hneg, Hz.
  rewrite V in Hpos, Hneg, Hz.
  destruct (legacy_update_velocity_ladder keys old) as (Lv1 & Lf1).
  destruct (legacy_update_flipX_cases (Legacy.update_velocity keys old))
    as (_ & Lpos & Lneg & Lz).
  cbv zeta in Lpos, Lneg, Lz; rewrite Lv1, Lf1 in *.
  destruct (update_rest_or_run delta keys p) as (Hidle & Hrun).
  cbv zeta in Hidle, Hrun; fold p' in Hidle, Hrun; rewrite V in Hidle, Hrun.
  destruct (legacy_update_frame_cases
              (Legacy.update_flipX (Legacy.update_velocity keys old)))
    as (_ & _ & Lidle & Lrun).
  cbv zeta in Lidle, Lrun; rewrite Lv2 in Lidle, Lrun.
  split; [rewrite V, Lv; reflexivity | split].
  - rewrite Lf.
    destruct (Rtotal_order (vecX (ladderVelocity keys)) 0)
      as [Hlt | [Heq | Hgt]].
    + rewrite (Hneg Hlt), (Lneg Hlt); reflexivity.
    + rewrite (Hz Heq), (Lz Heq); exact Hf.
    + rewrite (Hpos Hgt), (Lpos Hgt); reflexivity.
  - rewrite Li.
    destruct (anyDirectionKey keys) eqn:Ek.
    + assert (Hne : ladderVelocity keys <> mkVector2 0 0).
      { intro C; apply ladderVelocity_zero in C; congruence. }
      rewrite (proj2 (Hrun Hne)), (Lrun Hne); reflexivity.
    + assert (Hzero : ladderVelocity keys = mkVector2 0 0)
        by (apply ladderVelocity_zero; exact Ek).
      rewrite (proj2 (Hidle Hzero)), (Lidle Hzero); reflexivity.
Qed.

End LegacyFacts.

(** ** The class on binary64 numbers: its arithmetic *)

Section Binary64Facts.

Context {WeaponInternal : Type} {env : F64.Collaborators WeaponInternal}.

Local Abbreviation Player64 := (F64.Player WeaponInternal).

Local Open Scope float_scope.

Ltac case_if :=
  match goal with
  | |- context [if ?c then _ else _] => destruct c
  end.

(** The constants of the ladder are what the machine computes. *)
Lemma diagonalSpeed_computed :
  1 * (1 / PrimFloat.sqrt (1 * 1 + 1 * 1)) * F64.MOVE_SPEED
  = F64.diagonalSpeed /\
  -1 * (1 / PrimFloat.sqrt (-1 * -1 + -1 * -1)) * F64.MOVE_SPEED
  = - F64.diagonalSpeed /\
  PrimFloat.sqrt (F64.diagonalSpeed * F64.diagonalSpeed
                  + F64.diagonalSpeed * F64.diagonalSpeed)
  = F64.diagonalLength /\
  F64.MOVE_SPEED - F64.diagonalLength = 0x1p-47.
Proof. repeat split. Qed.

Lemma F64_update_velocity_frame (keys : Keys) (p : Player64) :
  let p' := F64.update_velocity keys p in
  F64.hitPoints p' = F64.hitPoints p /\ F64.flipX p' = F64.flipX p /\
  F64.weapon p' = F64.weapon p /\ F64.elapsedTime p' = F64.elapsedTime p /\
  F64.attackEnabled p' = F64.attackEnabled p.
Proof.
  unfold F64.update_velocity; destruct (F64.currentState p);
    repeat case_if; cbn; intuition.
Qed.

Lemma F64_update_flipX_frame (p : Player64) :
  let p' := F64.update_flipX p in
  F64.hitPoints p' = F64.hitPoints p /\ F64.body p' = F64.body p /\
  F64.currentState p' = F64.currentState p /\
  F64.elapsedTime p' = F64.elapsedTime p /\
  F64.attackEnabled p' = F64.attackEnabled p.
Proof.
  unfold F64.update_flipX; repeat case_if; cbn; intuition.
Qed.

Lemma F64_update_frame_frame (p : Player64) :
  let p' := F64.update_frame p in
  F64.hitPoints p' = F64.hitPoints p /\
  F64.velocity (F64.body p') = F64.velocity (F64.body p) /\
  F64.currentState p' = F64.currentState p /\
  F64.elapsedTime p' = F64.elapsedTime p /\
  F64.attackEnabled p' = F64.attackEnabled p.
Proof.
  unfold F64.update_frame; repeat case_if; cbn; intuition.
Qed.

Lemma F64_update_fields (delta : float) (keys : Keys) (p : Player64) :
  let p1 := F64.update_velocity keys p in
  let p' := F64.update delta keys p in
  F64.hitPoints p' = F64.hitPoints p /\
  F64.currentState p' = F64.currentState p1 /\
  F64.velocity (F64.body p') = F64.velocity (F64.body p1) /\
  F64.elapsedTime p' = F64.elapsedTime p + delta.
Proof.
  intros p1 p'.
  destruct (F64_update_velocity_frame keys p) as (H1 & _ & _ & H4 & _).
  destruct (F64_update_flipX_frame p1) as (G1 & G2 & G3 & G4 & _).
  destruct (F64_update_frame_frame (F64.update_flipX p1))
    as (F1 & F2 & F3 & F4 & _).
  fold p1 in H1, H4.
  cbv zeta in G1, G2, G3, G4, F1, F2, F3, F4.
  subst p'; unfold F64.update; fold p1; cbn.
  rewrite F1, F2, F3, F4, G1, G2, G3, G4, H1, H4; repeat split.
Qed.

Lemma F64_update_velocity_Default (keys : Keys) (p : Player64) :
  F64.currentState p = Default ->
  F64.velocity (F64.body (F64.update_velocity keys p))
  = F64.ladderVelocity keys /\
  F64.currentState (F64.update_velocity keys p) = Default.
Proof.
  intro Hs; unfold F64.update_velocity, F64.ladderVelocity; rewrite Hs.
  destruct (keyW keys), (keyA keys), (keyS keys), (keyD keys);
    cbn [andb]; split; try exact Hs; reflexivity.
Qed.

Lemma F64_update_velocity_Talking (keys : Keys) (p : Player64) :
  F64.currentState p = Talking ->
  F64.velocity (F64.body (F64.update_velocity keys p)) = F64.mkVector2 0 0 /\
  F64.currentState (F64.update_velocity keys p) = Talking.
Proof.
  intro Hs; unfold F64.update_velocity; rewrite Hs; cbn; split;
    [reflexivity | exact Hs].
Qed.

Lemma F64_update_velocity_FinishTalking (keys : Keys) (p : Player64) :
  F64.currentState p = FinishTalking ->
  F64.velocity (F64.body (F64.update_velocity keys p))
  = F64.velocity (F64.body p) /\
  ((200 <? F64.elapsedTime p) = false ->
   F64.currentState (F64.update_velocity keys p) = FinishTalking) /\
  ((200 <? F64.elapsedTime p) = true ->
   F64.currentState (F64.update_velocity keys p) = Default).
Proof.
  intro Hs; unfold F64.update_velocity; rewrite Hs.
  destruct (200 <? F64.elapsedTime p); cbn;
    repeat split; intros; try assumption; try reflexivity; discriminate.
Qed.

Lemma F64_updates_cons (delta : float) (keys : Keys)
      (rest : list (float * Keys)) (p : Player64) :
  F64.updates ((delta, keys) :: rest) p
  = F64.updates rest (F64.update delta keys p).
Proof. reflexivity. Qed.

Lemma F64_updates_Default (ticks : list (float * Keys)) (p : Player64) :
  F64.currentState p = Default ->
  F64.currentState (F64.updates ticks p) = Default.
Proof.
  revert p; induction ticks as [| [delta keys] rest IH]; intros p Hs.
  - exact Hs.
  - rewrite F64_updates_cons; apply IH.
    destruct (F64_update_fields delta keys p) as (_ & Hc & _).
    cbv zeta in Hc; rewrite Hc.
    apply F64_update_velocity_Default; exact Hs.
Qed.

(** On the hit points and amounts a game sees, the integer arithmetic of
    the first embedding is the binary64 arithmetic of the code: for hit
    points 0 to 100 and amounts -100 to 100 both give the same number. *)
Lemma hitPoints_arithmetic_agrees_in_game_range :
  forallb
    (fun h =>
       forallb
         (fun d =>
            PrimFloat.eqb (F64.Math_max 0 (F64.ofZ h - F64.ofZ d))
                          (F64.ofZ (Z.max 0 (h - d))))
         (F64.integersFrom (-100) 201))
    (F64.integersFrom 0 101) = true.
Proof. vm_compute; reflexivity. Qed.

(** The settle timer on the counter the code keeps. *)
Lemma F64_updates_FinishTalking (ticks : list (float * Keys)) (p : Player64) :
  F64.currentState p = FinishTalking ->
  let starts := F64.startTimes (F64.elapsedTime p) (map fst ticks) in
  (Forall (fun t => (200 <? t) = false) starts ->
   F64.currentState (F64.updates ticks p) = FinishTalking /\
   F64.velocity (F64.body (F64.updates ticks p))
   = F64.velocity (F64.body p)) /\
  (Exists (fun t => (200 <? t) = true) starts ->
   F64.currentState (F64.updates ticks p) = Default).
Proof.
  revert p; induction ticks as [| [delta keys] rest IH]; intros p Hs starts.
  - split; [intros _; split; [exact Hs | reflexivity] | intro H; inversion H].
  - subst starts; cbn [map fst F64.startTimes]; rewrite F64_updates_cons.
    destruct (F64_update_velocity_FinishTalking keys p Hs) as (Hv & Hle & Hgt).
    destruct (F64_update_fields delta keys p) as (_ & Hc & Hvel & Ht).
    cbv zeta in Hc, Hvel, Ht.
    split.
    + intro HF; inversion HF as [| t ts Ht0 Hrest]; subst.
      assert (Hs1 : F64.currentState (F64.update delta keys p)
                    = FinishTalking) by (rewrite Hc; apply Hle; exact Ht0).
      destruct (IH (F64.update delta keys p) Hs1) as (IHle & _).
      rewrite Ht in IHle. destruct (IHle Hrest) as (Hs2 & Hv2).
      split; [exact Hs2 | rewrite Hv2, Hvel; exact Hv].
    + intro HE.
      destruct (200 <? F64.elapsedTime p) eqn:Hnow.
      * apply F64_updates_Default. rewrite Hc; apply Hgt; reflexivity.
      * inversion HE as [t ts Hhere | t ts Hlater]; subst;
          [rewrite Hnow in Hhere; discriminate |].
        assert (Hs1 : F64.currentState (F64.update delta keys p)
                      = FinishTalking) by (rewrite Hc; apply Hle; reflexivity).
        destruct (IH (F64.update delta keys p) Hs1) as (_ & IHgt).
        rewrite Ht in IHgt. apply IHgt; exact Hlater.
Qed.

(** C4, as the code has it.  After [setCurrentState FinishTalking], which
    puts the elapsed-time counter to 0, the state stays [FinishTalking]
    through every frame at whose start the counter is not above 200, the
    counter being the [delta]s of the frames before added one by one in
    binary64; the first frame that starts with the counter above 200 puts
    the state to [Default], where it stays. *)
Theorem finishTalking_settles_on_counter_above_threshold
        (ticks : list (float * Keys)) (p : Player64) :
  let p0 := F64.setCurrentState FinishTalking p in
  let starts := F64.startTimes 0 (map fst ticks) in
  F64.currentState p0 = FinishTalking /\ F64.elapsedTime p0 = 0 /\
  (Forall (fun t => (200 <? t) = false) starts ->
   F64.currentState (F64.updates ticks p0) = FinishTalking) /\
  (Exists (fun t => (200 <? t) = true) starts ->
   F64.currentState (F64.updates ticks p0) = Default).
Proof.
  intros p0 starts.
  assert (Hs : F64.currentState p0 = FinishTalking) by reflexivity.
  destruct (F64_updates_FinishTalking ticks p0 Hs) as (Hle & Hgt).
  split; [exact Hs | split; [reflexivity | split]].
  - intro HF; apply Hle; exact HF.
  - exact Hgt.
Qed.

Lemma F64_update_Default_velocity (delta : float) (keys : Keys)
      (p : Player64) :
  F64.currentState p = Default ->
  F64.velocity (F64.body (F64.update delta keys p)) = F64.ladderVelocity keys.
Proof.
  intro Hs.
  destruct (F64_update_fields delta keys p) as (_ & _ & Hv & _).
  cbv zeta in Hv; rewrite Hv.
  apply F64_update_velocity_Default; exact Hs.
Qed.

Lemma F64_ladderVelocity_length (keys : Keys) :
  F64.Vector2_length (F64.ladderVelocity keys) =
  if F64.onDiagonalRung keys then F64.diagonalLength
  else if anyDirectionKey keys then F64.MOVE_SPEED else 0.
Proof.
  unfold F64.ladderVelocity, F64.onDiagonalRung, anyDirectionKey.
  destruct (keyW keys), (keyA keys), (keyS keys), (keyD keys); reflexivity.
Qed.

(** C5, as the code has it.  In the [Default] state [update] sets the
    velocity to the first matching rung of the ladder: opposing keys do not
    cancel (up wins over down, left over right, and a diagonal rung over
    both).  A single key gives an axis-aligned vector of magnitude exactly
    [MOVE_SPEED] and no key gives (0,0).  A diagonal rung gives the
    normalized diagonal as binary64 computes it, both components
    45.25483399593904 long, of magnitude 63.99999999999999: one rounding
    step (2^-47) below [MOVE_SPEED], not [MOVE_SPEED]. *)
Theorem update_Default_ladder_rounded
        (delta : float) (keys : Keys) (p : Player64) :
  F64.currentState p = Default ->
  let v := F64.velocity (F64.body (F64.update delta keys p)) in
  v = F64.ladderVelocity keys /\
  F64.Vector2_length v =
    (if F64.onDiagonalRung keys then F64.diagonalLength
     else if anyDirectionKey keys then F64.MOVE_SPEED else 0) /\
  F64.MOVE_SPEED - F64.diagonalLength = 0x1p-47 /\
  (keyW keys = true -> keyS keys = true -> keyA keys = false ->
   keyD keys = false -> v = F64.mkVector2 0 (- F64.MOVE_SPEED)) /\
  (keyA keys = true -> keyD keys = true -> keyW keys = false ->
   keyS keys = false -> v = F64.mkVector2 (- F64.MOVE_SPEED) 0).
Proof.
  intros Hs v.
  assert (E : v = F64.ladderVelocity keys)
    by (apply F64_update_Default_velocity, Hs).
  split; [exact E |]. rewrite E.
  split; [apply F64_ladderVelocity_length |].
  split; [reflexivity |].
  unfold F64.ladderVelocity; split; intros H1 H2 H3 H4;
    rewrite H1, H2, H3, H4; reflexivity.
Qed.

(** X6.  The elapsed-time counter only ever grows by the frame times:
    after any frames, in whatever states they pass through, it is its old
    value with the [delta]s added one by one in call order, each sum
    rounded to binary64; [update] never sets it back, also not on the
    frame that leaves [FinishTalking]. *)
Theorem updates_accumulate_elapsedTime_rounded
        (ticks : list (float * Keys)) (p : Player64) :
  F64.elapsedTime (F64.updates ticks p)
  = fold_left PrimFloat.add (map fst ticks) (F64.elapsedTime p).
Proof.
  revert p; induction ticks as [| [delta keys] rest IH]; intro p.
  - reflexivity.
  - rewrite F64_updates_cons, IH; cbn [map fst fold_left].
    destruct (F64_update_fields delta keys p) as (_ & _ & _ & Ht).
    cbv zeta in Ht; rewrite Ht; reflexivity.
Qed.

Lemma F64_updates_Talking (ticks : list (float * Keys)) (p : Player64) :
  F64.currentState p = Talking -> ticks <> [] ->
  F64.currentState (F64.updates ticks p) = Talking /\
  F64.velocity (F64.body (F64.updates ticks p)) = F64.mkVector2 0 0.
Proof.
  revert p; induction ticks as [| [delta keys] rest IH];
    intros p Hs Hne; [contradiction Hne; reflexivity |].
  rewrite F64_updates_cons.
  destruct (F64_update_velocity_Talking keys p Hs) as (Hv & Hs').
  destruct (F64_update_fields delta keys p) as (_ & Hc & Hvel & _).
  cbv zeta in Hc, Hvel.
  assert (Hs1 : F64.currentState (F64.update delta keys p) = Talking)
    by (rewrite Hc; exact Hs').
  destruct rest as [| tick rest'].
  - cbn [F64.updates]; split; [exact Hs1 | rewrite Hvel; exact Hv].
  - apply IH; [exact Hs1 | discriminate].
Qed.

(** X8.  The way a talk is used, the player does not move until the settle
    time is over: after one or more [Talking] frames, then
    [setCurrentState FinishTalking], then any frames that each start with
    the counter (the binary64 sum of the [delta]s since) not above 200,
    the state is [FinishTalking] and the velocity is (0,0), whatever keys
    were held all along. *)
Theorem talk_then_settle_keeps_still_on_counter
        (talk settle : list (float * Keys)) (p : Player64) :
  F64.currentState p = Talking -> talk <> [] ->
  Forall (fun t => (200 <? t) = false)
         (F64.startTimes 0 (map fst settle)) ->
  let q := F64.setCurrentState FinishTalking (F64.updates talk p) in
  F64.currentState (F64.updates settle q) = FinishTalking /\
  F64.velocity (F64.body (F64.updates settle q)) = F64.mkVector2 0 0.
Proof.
  intros Hs Hne HF q.
  destruct (F64_updates_Talking talk p Hs Hne) as (_ & Hv).
  assert (Hq : F64.currentState q = FinishTalking) by reflexivity.
  assert (Vq : F64.velocity (F64.body q) = F64.mkVector2 0 0) by exact Hv.
  destruct (F64_updates_FinishTalking settle q Hq) as (Hle & _).
  destruct (Hle HF) as (Hs2 & Hv2).
  split; [exact Hs2 | rewrite Hv2; exact Vq].
Qed.

End Binary64Facts.

(** ** The concrete game: instances of the properties and departures of
    the code from the specification *)

#[local] Existing Instance plainWeapon.

Lemma plainWeapon_keeps_flip : WeaponKeepsFlip plainWeapon.
Proof. split; intros; reflexivity. Qed.

Lemma knight_reachable : reachable knight.
Proof. apply reachable_new. Qed.

Lemma walkingKnight_velocity :
  velocity (body walkingKnight) = mkVector2 MOVE_SPEED 0.
Proof.
  unfold walkingKnight; rewrite update_Default_velocity by reflexivity.
  reflexivity.
Qed.

Lemma walkingKnight_state : currentState walkingKnight = Default.
Proof.
  unfold walkingKnight; rewrite update_currentState_of_block.
  apply update_velocity_Default; reflexivity.
Qed.

Lemma slidingKnight_velocity :
  velocity (body slidingKnight) = mkVector2 MOVE_SPEED 0.
Proof. exact walkingKnight_velocity. Qed.

Lemma receiveDamage_clamps_witness :
  reachable knight /\ 0 <= 3 /\
  hitPoints (fst (receiveDamage theScene 3 knight)) = 5.
Proof.
  split; [exact knight_reachable | split; [lia |]].
  exact (proj1 (receiveDamage_clamps theScene 3 knight
                  knight_reachable ltac:(lia))).
Defined.

(** Against C2: the knight is at 0 after a blow of 8, with one downward
    crossing; a second blow emits a second [PlayerDies]. *)
Lemma playerDies_again_at_zero :
  let r := receiveDamages theScene [8; 1] knight in
  snd r = [0; 0] /\
  downwardCrossings (hitPoints knight) (snd r) = 1%nat /\
  countPlayerDies (snd (fst r)) = 2%nat /\
  hitPoints deadKnight = 0 /\
  countPlayerDies (snd (receiveDamage theScene 1 deadKnight)) = 1%nat.
Proof.
  cbv zeta; repeat split.
Qed.

Lemma playerDies_once_per_call_ending_at_zero_witness :
  hitPoints deadKnight = 0 /\ 0 <= 1 /\
  countPlayerDies (snd (receiveDamage theScene 1 deadKnight)) = 1%nat.
Proof.
  split; [reflexivity | split; [lia |]].
  exact (proj1 (proj2 (playerDies_once_per_call_ending_at_zero
                         theScene [] deadKnight))
           1 eq_refl ltac:(lia)).
Defined.

(** Against C3: in [FinishTalking] the knight keeps the velocity it had,
    here 64 to the right, through an [update] with no key held. *)
Lemma finishTalking_keeps_moving :
  currentState slidingKnight = FinishTalking /\
  velocity (body (update 16 noKeys slidingKnight)) = mkVector2 MOVE_SPEED 0 /\
  velocity (body (update 16 noKeys slidingKnight)) <> mkVector2 0 0.
Proof.
  assert (E : velocity (body (update 16 noKeys slidingKnight)) =
              mkVector2 MOVE_SPEED 0).
  { rewrite update_FinishTalking_keeps_velocity by reflexivity.
    exact slidingKnight_velocity. }
  split; [reflexivity | split; [exact E |]].
  rewrite E; unfold MOVE_SPEED; intro C; injection C as C; lra.
Qed.

Lemma update_velocity_while_talking_witness :
  currentState talkingKnight = Talking /\
  velocity (body talkingKnight) = mkVector2 MOVE_SPEED 0 /\
  velocity (body (update 16 onlyD talkingKnight)) = mkVector2 0 0.
Proof.
  split; [reflexivity | split; [exact walkingKnight_velocity |]].
  exact (proj1 (update_velocity_while_talking 16 onlyD talkingKnight)
           eq_refl).
Defined.

(** Against C6: on the blow that kills, [PlayerDies] is not preceded by
    [PlayerHpChange]; it precedes it. *)
Lemma hpChange_follows_playerDies :
  let q := fst (receiveDamage theScene 3 knight) in
  let log := snd (receiveDamage theScene 5 q) in
  hitPoints q = 5 /\
  hitPoints (fst (receiveDamage theScene 5 q)) = 0 /\
  emittedBefore isPlayerHpChange isPlayerDies log = false /\
  emittedBefore isPlayerDies isPlayerHpChange log = true.
Proof.
  cbv zeta; repeat split.
Qed.

Lemma playerDies_precedes_hpChange_witness :
  hitPoints (fst (receiveDamage theScene 8 knight)) = 0 /\
  emittedBefore isPlayerDies isPlayerHpChange
    (snd (receiveDamage theScene 8 knight)) = true.
Proof.
  split; [reflexivity |].
  exact (proj1 (proj2 (proj1 (playerDies_precedes_hpChange theScene 8 knight)
                         eq_refl))).
Defined.

Lemma update_facing_follows_velocity_witness :
  WeaponKeepsFlip plainWeapon /\ reachable walkingKnight /\
  facing (update 16 upAndLeft walkingKnight) = FacingLeft /\
  weaponFacing (update 16 upAndLeft walkingKnight) = FacingLeft.
Proof.
  assert (R0 : reachable walkingKnight).
  { exact (reachable_call (CallUpdate 16 onlyD) knight knight_reachable). }
  split; [exact plainWeapon_keeps_flip | split; [exact R0 |]].
  pose proof (update_facing_follows_velocity
                (laws := plainWeapon_keeps_flip) 16 upAndLeft walkingKnight R0)
    as (_ & Hneg & _ & _ & Hw).
  assert (V : velocity (body (update 16 upAndLeft walkingKnight)) =
              mkVector2 (- diagonalSpeed) (- diagonalSpeed)).
  { rewrite update_Default_velocity by exact walkingKnight_state.
    reflexivity. }
  rewrite V in Hneg; cbn [vecX] in Hneg.
  pose proof diagonalSpeed_pos as Hd.
  assert (F : facing (update 16 upAndLeft walkingKnight) = FacingLeft)
    by (apply Hneg; lra).
  split; [exact F | rewrite Hw; exact F].
Defined.

Lemma knightPrefixes_differ :
  IdleAnimationPrefix knightConstants <> RunAnimationPrefix knightConstants.
Proof. discriminate. Qed.

Lemma update_idle_iff_immovable_witness :
  IdleAnimationPrefix (data (Collaborators := plainWeapon))
  <> RunAnimationPrefix (data (Collaborators := plainWeapon)) /\
  immovable (body (update 16 noKeys knight)) = true /\
  animKey (update 16 noKeys knight) = Some "knight_m:idle"%string /\
  immovable (body (update 16 onlyD knight)) = false /\
  animKey (update 16 onlyD knight) = Some "knight_m:run"%string /\
  animKey (update 16 onlyD knight) <> Some "knight_m:idle"%string.
Proof.
  split; [exact knightPrefixes_differ |].
  pose proof (update_idle_iff_immovable 16 noKeys knight knightPrefixes_differ)
    as (_ & Hidle & _).
  pose proof (update_idle_iff_immovable 16 onlyD knight knightPrefixes_differ)
    as (_ & _ & Hrun & _).
  cbv zeta in Hidle, Hrun.
  assert (Hz : velocity (body (update 16 noKeys knight)) = mkVector2 0 0).
  { rewrite update_Default_velocity by reflexivity; reflexivity. }
  assert (Hnz : velocity (body (update 16 onlyD knight)) <> mkVector2 0 0).
  { rewrite update_Default_velocity by reflexivity.
    change (ladderVelocity onlyD) with (mkVector2 MOVE_SPEED 0).
    unfold MOVE_SPEED; intro C; injection C as C; lra. }
  destruct (Hidle Hz) as (Ha & _ & Hi).
  destruct (Hrun Hnz) as (Hb & Hc & Hj).
  assert (Ka : getIdleAnimationKey (update 16 noKeys knight)
               = "knight_m:idle"%string).
  { destruct (update_animKeys 16 noKeys knight) as (K & _); rewrite K.
    reflexivity. }
  assert (Kb : getRunAnimationKey (update 16 onlyD knight)
               = "knight_m:run"%string).
  { destruct (update_animKeys 16 onlyD knight) as (_ & K); rewrite K.
    reflexivity. }
  assert (Kc : getIdleAnimationKey (update 16 onlyD knight)
               = "knight_m:idle"%string).
  { destruct (update_animKeys 16 onlyD knight) as (K & _); rewrite K.
    reflexivity. }
  rewrite Ka in Ha; rewrite Kb in Hb; rewrite Kc in Hc.
  repeat split; assumption.
Defined.

Lemma setCurrentState_resets_and_is_only_entry_witness :
  elapsedTime (setCurrentState Talking talkingKnight) = 0%R /\
  CallSetCurrentState Talking = CallSetCurrentState Talking.
Proof.
  split.
  - exact (proj1 (proj1 (setCurrentState_resets_and_is_only_entry
                           Talking talkingKnight))).
  - exact (proj2 (proj2 (setCurrentState_resets_and_is_only_entry
                           Talking walkingKnight))
             (CallSetCurrentState Talking) Talking
             (or_introl eq_refl)
             ltac:(rewrite walkingKnight_state; discriminate) eq_refl).
Defined.

Lemma receiveDamage_negative_amount_heals_witness :
  -1 < 0 /\ 0 <= hitPoints knight /\
  0 <= hitPoints knight - -1 <= 2 ^ 53 /\
  hitPoints (fst (receiveDamage theScene (-1) knight)) = 9 /\
  MAX_HIT_POINTS < 9.
Proof.
  assert (H0 : 0 <= hitPoints knight) by (cbn; unfold MAX_HIT_POINTS; lia).
  assert (Hb : 0 <= hitPoints knight - -1 <= 2 ^ 53)
    by (cbn; unfold MAX_HIT_POINTS; lia).
  split; [lia | split; [exact H0 | split; [exact Hb |]]].
  split.
  - exact (proj1 (proj1 (receiveDamage_negative_amount_heals
                           theScene (-1) knight)
                    ltac:(lia) H0 Hb)).
  - exact (proj1 (proj2 (receiveDamage_negative_amount_heals
                           theScene (-1) knight))
             100%R 100%R knightConfig).
Defined.

(** ** The further properties in the concrete game *)

#[local] Existing Instance plainLegacyWeapon.

Lemma hitPoints_never_rise_witness :
  0 <= hitPoints knight /\
  forallb damageNonNegative
    [CallReceiveDamage theScene 3; CallUpdate 16 onlyD;
     CallReceiveDamage theScene 9] = true /\
  0 <= hitPoints
         (fst (performAll
                 [CallReceiveDamage theScene 3; CallUpdate 16 onlyD;
                  CallReceiveDamage theScene 9] knight))
    <= hitPoints knight.
Proof.
  assert (H0 : 0 <= hitPoints knight) by (cbn; unfold MAX_HIT_POINTS; lia).
  split; [exact H0 | split; [reflexivity |]].
  exact (proj1 (hitPoints_never_rise
                  [CallReceiveDamage theScene 3; CallUpdate 16 onlyD;
                   CallReceiveDamage theScene 9] knight H0 eq_refl)).
Defined.

Lemma talking_holds_the_player_still_witness :
  currentState talkingKnight = Talking /\
  [(16%R, onlyD); (16%R, upAndLeft)] <> [] /\
  velocity (body (updates [(16%R, onlyD); (16%R, upAndLeft)] talkingKnight))
  = mkVector2 0 0.
Proof.
  split; [reflexivity | split; [discriminate |]].
  exact (proj1 (proj2 (talking_holds_the_player_still
                         [(16%R, onlyD); (16%R, upAndLeft)] talkingKnight
                         eq_refl ltac:(discriminate)))).
Defined.



Lemma update_Default_directions_witness :
  currentState knight = Default /\
  (vecY (velocity (body (update 16 upAndDown knight))) < 0)%R.
Proof.
  split; [reflexivity |].
  apply (update_Default_directions 16 upAndDown knight eq_refl).
  reflexivity.
Defined.

Lemma update_Default_facing_by_keys_witness :
  currentState knight = Default /\
  flipX (update 16 leftAndRight knight) = true.
Proof.
  split; [reflexivity |].
  exact (update_Default_facing_by_keys 16 leftAndRight knight eq_refl).
Defined.

Lemma update_Default_solid_iff_no_key_witness :
  IdleAnimationPrefix (data (Collaborators := plainWeapon))
  <> RunAnimationPrefix (data (Collaborators := plainWeapon)) /\
  currentState knight = Default /\
  immovable (body (update 16 upAndDown knight)) = false /\
  animKey (update 16 upAndDown knight) = Some "knight_m:run"%string /\
  immovable (body (update 16 noKeys knight)) = true /\
  animKey (update 16 noKeys knight) = Some "knight_m:idle"%string.
Proof.
  split; [exact knightPrefixes_differ | split; [reflexivity |]].
  pose proof (update_Default_solid_iff_no_key 16 upAndDown knight
                knightPrefixes_differ eq_refl) as (Hi & Ha & _).
  pose proof (update_Default_solid_iff_no_key 16 noKeys knight
                knightPrefixes_differ eq_refl) as (Hj & Hb & _).
  repeat split; assumption.
Defined.

Lemma legacy_hitPoints_within_maximum_witness :
  0 <= Legacy.hitPoints legacyKnight <= Legacy.maxHitPoints legacyKnight /\
  Forall (fun d => 0 <= d) [30; 80] /\
  0 <= Legacy.hitPoints (fst (Legacy.receiveDamages [30; 80] legacyKnight))
    <= Legacy.hitPoints legacyKnight.
Proof.
  assert (H0 : 0 <= Legacy.hitPoints legacyKnight
               <= Legacy.maxHitPoints legacyKnight) by (cbn; lia).
  assert (HF : Forall (fun d => 0 <= d) [30; 80])
    by (repeat constructor; lia).
  split; [exact H0 | split; [exact HF |]].
  exact (proj1 (legacy_hitPoints_within_maximum [30; 80] legacyKnight H0 HF)).
Defined.

Lemma update_Default_agrees_with_legacy_witness :
  currentState knight = Default /\
  flipX knight = Legacy.flipX legacyKnight /\
  flipX (update 16 upAndLeft knight)
  = Legacy.flipX (Legacy.update upAndLeft legacyKnight).
Proof.
  split; [reflexivity | split; [reflexivity |]].
  exact (proj1 (proj2 (update_Default_agrees_with_legacy
                         16 upAndLeft knight legacyKnight
                         eq_refl eq_refl))).
Defined.

(** ** The binary64 class in the concrete game *)

#[local] Existing Instance F64.plainWeapon.

(** Against C4: a first frame of 200 ms takes the counter to 200, and the
    state is still [FinishTalking] after it and after the frame that
    follows, which starts with the counter at 200; the third frame puts the
    state to [Default], and the counter goes on to 232. *)
Lemma finishTalking_outlasts_threshold :
  let p0 := F64.setCurrentState FinishTalking F64.knight in
  let p1 := F64.update 200 noKeys p0 in
  let p2 := F64.update 16 noKeys p1 in
  let p3 := F64.update 16 noKeys p2 in
  F64.elapsedTime p1 = 200%float /\ F64.currentState p1 = FinishTalking /\
  F64.elapsedTime p2 = 216%float /\ F64.currentState p2 = FinishTalking /\
  F64.currentState p3 = Default /\ F64.elapsedTime p3 = 232%float.
Proof. cbv zeta; repeat split. Qed.

(** At 60 frames a second the counter is 199.99999999999997 at the start
    of the thirteenth frame, so thirteen frames leave the state at
    [FinishTalking] and the fourteenth ends it. *)
Lemma finishTalking_settles_on_counter_above_threshold_witness :
  last (F64.startTimes 0 (map fst (repeat (F64.frame60, noKeys) 13))) 0%float
  = 0x1.8ffffffffffffp+7%float /\
  F64.currentState
    (F64.updates (repeat (F64.frame60, noKeys) 13)
       (F64.setCurrentState FinishTalking F64.knight)) = FinishTalking /\
  F64.currentState
    (F64.updates (repeat (F64.frame60, noKeys) 14)
       (F64.setCurrentState FinishTalking F64.knight)) = Default.
Proof.
  split; [reflexivity | split].
  - apply (finishTalking_settles_on_counter_above_threshold
             (repeat (F64.frame60, noKeys) 13) F64.knight).
    cbn [repeat map fst F64.startTimes]; repeat constructor.
  - apply (finishTalking_settles_on_counter_above_threshold
             (repeat (F64.frame60, noKeys) 14) F64.knight).
    cbn [repeat map fst F64.startTimes].
    do 13 apply Exists_cons_tl; apply Exists_cons_hd; reflexivity.
Defined.

(** Against C5: with up and down held the knight moves up at full speed,
    and with left and right held it moves left at full speed; neither axis
    cancels.  And with up and left held the magnitude of the velocity is
    below [MOVE_SPEED]. *)
Lemma opposing_keys_do_not_cancel :
  F64.velocity (F64.body (F64.update 16 upAndDown F64.knight))
  = F64.mkVector2 0 (-64) /\
  PrimFloat.eqb
    (F64.vecY (F64.velocity (F64.body (F64.update 16 upAndDown F64.knight))))
    0 = false /\
  F64.velocity (F64.body (F64.update 16 leftAndRight F64.knight))
  = F64.mkVector2 (-64) 0 /\
  PrimFloat.eqb
    (F64.vecX
       (F64.velocity (F64.body (F64.update 16 leftAndRight F64.knight))))
    0 = false /\
  PrimFloat.ltb
    (F64.Vector2_length
       (F64.velocity (F64.body (F64.update 16 upAndLeft F64.knight))))
    F64.MOVE_SPEED = true.
Proof. repeat split. Qed.

Lemma update_Default_ladder_rounded_witness :
  F64.currentState F64.knight = Default /\
  F64.velocity (F64.body (F64.update 16 upAndLeft F64.knight))
  = F64.mkVector2 (-0x1.6a09e667f3bccp+5) (-0x1.6a09e667f3bccp+5) /\
  F64.Vector2_length
    (F64.velocity (F64.body (F64.update 16 upAndLeft F64.knight)))
  = 0x1.fffffffffffffp+5%float /\
  PrimFloat.ltb 0x1.fffffffffffffp+5 F64.MOVE_SPEED = true.
Proof.
  split; [reflexivity |].
  pose proof (update_Default_ladder_rounded 16 upAndLeft F64.knight eq_refl)
    as H.
  exact (conj (proj1 H) (conj (proj1 (proj2 H)) eq_refl)).
Defined.

(** Against C10: on a fresh knight [receiveDamage(-2^56)] leaves 2^56 hit
    points, not 2^56 + 8; after it [receiveDamage(-1)], a negative amount
    with hit points minus amount not below 0, leaves the hit points as they
    were. *)
Lemma receiveDamage_large_amounts_are_rounded :
  let p1 := fst (F64.receiveDamage F64.theScene (-0x1p+56) F64.knight) in
  let p2 := fst (F64.receiveDamage F64.theScene (-1) p1) in
  F64.hitPoints F64.knight = 8%float /\
  F64.hitPoints p1 = 0x1p+56%float /\
  PrimFloat.ltb (-1) 0 = true /\
  PrimFloat.leb 0 (PrimFloat.sub (F64.hitPoints p1) (-1)) = true /\
  F64.hitPoints p2 = F64.hitPoints p1 /\
  PrimFloat.ltb (F64.hitPoints p1) (F64.hitPoints p2) = false.
Proof. cbv zeta; repeat split. Qed.

(** At 90 frames a second the counter is at most 200 at the start of each
    of the first eighteen frames after the talk. *)
Lemma talk_then_settle_keeps_still_on_counter_witness :
  F64.currentState F64.talkingKnight = Talking /\
  F64.velocity
    (F64.body
       (F64.updates (repeat (F64.frame90, onlyD) 18)
          (F64.setCurrentState FinishTalking
             (F64.updates [(16%float, onlyD)] F64.talkingKnight))))
  = F64.mkVector2 0 0.
Proof.
  split; [reflexivity |].
  apply (talk_then_settle_keeps_still_on_counter
           [(16%float, onlyD)] (repeat (F64.frame90, onlyD) 18)
           F64.talkingKnight eq_refl ltac:(discriminate)).
  cbn [repeat map fst F64.startTimes]; repeat constructor.
Defined.
